(** * QualityMonitoring.c: a shallow embedding and its properties

    The program reads text frames from serial ports, one thread per port,
    scans each frame with [sscanf(buffer, "%s %f", ...)], validates the
    reading, appends it to a CSV file and keeps running statistics with a
    threshold alert.

    The embedding follows the C source function by function.  Effects are
    made explicit: every call that talks to the outside world ([printf],
    [fprintf] on the CSV file, [CloseHandle], [free], [Sleep], thread
    creation and the final wait) appends one [event] to a trace, in program
    order, and everything the environment decides ([ReadFile], [fopen],
    [CreateFile], ...) is an explicit input.

    C [float] is IEEE-754 binary32; it is modelled by [spec_float] with a
    24 bit significand, using the operations of [SpecFloat], every operation
    rounded to single precision.  C [int] is a 32 bit two's complement
    integer.  Strings are C strings; where the program writes one into a
    [char [10]] array without looking at its length, the model says so
    ([ScanOverrun]) instead of guessing what follows. *)

From Stdlib Require Import ZArith NArith PArith Bool List Lia.
From Stdlib Require Import Strings.Ascii Strings.String.
From Stdlib Require Import Numbers.DecimalString Numbers.DecimalN.
From Stdlib Require Import Floats.SpecFloat.
From Stdlib Require Import Sorting.Permutation.
Import ListNotations.

Local Open Scope string_scope.
Local Open Scope Z_scope.

(** ** Single precision floating point *)

Module F32.

Definition prec : Z := 24.
Definition emax : Z := 128.

Definition float : Type := spec_float.

Definition add : float -> float -> float := SFadd prec emax.
Definition ltb : float -> float -> bool := SFltb.
Definition leb : float -> float -> bool := SFleb.
Definition eqb : float -> float -> bool := SFeqb.

(** [x > y] in C is [y < x]. *)
Definition gtb (x y : float) : bool := ltb y x.

Definition is_nan (x : float) : bool :=
  match x with S754_nan => true | _ => false end.

Definition is_finite (x : float) : bool :=
  match x with S754_zero _ | S754_finite _ _ _ => true | _ => false end.

(** Conversion of an integer constant such as [0] or [1000]. *)
Definition of_Z (n : Z) : float := binary_normalize prec emax n 0 false.

(** The correctly rounded value of [(-1)^neg * num / den]. *)
Definition of_ratio (neg : bool) (num den : positive) : float :=
  let '(mz, ez, lz) := SFdiv_core_binary prec emax (Zpos num) 0 (Zpos den) 0 in
  binary_round_aux prec emax neg mz ez lz.

(** The correctly rounded value of [(-1)^neg * m * 10^e10]. *)
Definition of_decimal (neg : bool) (m : Z) (e10 : Z) : float :=
  match m with
  | Zpos p =>
      if 0 <=? e10
      then binary_round prec emax neg (p * Z.to_pos (10 ^ e10)) 0
      else of_ratio neg p (Z.to_pos (10 ^ (- e10)))
  | _ => S754_zero neg
  end.

(** The correctly rounded value of [(-1)^neg * m * 2^e2]. *)
Definition of_binary (neg : bool) (m : Z) (e2 : Z) : float :=
  match m with
  | Zpos p => binary_round prec emax neg p e2
  | _ => S754_zero neg
  end.

Definition zero : float := S754_zero false.
Definition nan : float := S754_nan.
Definition infinity (neg : bool) : float := S754_infinity neg.

End F32.


(** ** C strings and the scanner [sscanf(buffer, "%s %f", id, &value)]

    [sscanf] belongs to the C library, not to the program.  The model below
    follows ISO C (7.21.6.2) for the directives.  For [%f] it does what the
    GNU C library does: the characters that can belong to a number are
    collected and handed to [strtod], which converts the longest prefix of
    them that is a number (7.22.1.3), so that [1e] is read as 1 and [nan(]
    as a NaN; nothing is converted when the collecting breaks off inside
    [0x] or [infinity], as for [0x] and [infi]. *)

Module Scan.

Definition code (c : ascii) : Z := Z.of_N (N_of_ascii c).

(** [isspace] in the C locale: space, \t, \n, \v, \f, \r. *)
Definition isspace (c : ascii) : bool :=
  (code c =? 32) || ((9 <=? code c) && (code c <=? 13)).

Definition isdigit (c : ascii) : bool := (48 <=? code c) && (code c <=? 57).

Definition isupper (c : ascii) : bool := (65 <=? code c) && (code c <=? 90).

Definition tolower (c : ascii) : ascii :=
  if isupper c then ascii_of_N (Z.to_N (code c + 32)) else c.

Definition isxdigit (c : ascii) : bool :=
  isdigit c || ((97 <=? code (tolower c)) && (code (tolower c) <=? 102)).

Definition digit_val (c : ascii) : Z := code c - 48.

Definition xdigit_val (c : ascii) : Z :=
  if isdigit c then code c - 48 else code (tolower c) - 87.

(** A buffer is read as a C string: it ends at its first NUL byte. *)
Fixpoint c_str (s : string) : string :=
  match s with
  | EmptyString => EmptyString
  | String c t => if code c =? 0 then EmptyString else String c (c_str t)
  end.

Fixpoint skip_ws (s : string) : string :=
  match s with
  | String c t => if isspace c then skip_ws t else s
  | EmptyString => EmptyString
  end.

(** The longest prefix without white space, and what follows it. *)
Fixpoint span_nonws (s : string) : string * string :=
  match s with
  | String c t =>
      if isspace c then (EmptyString, s)
      else let '(tok, rest) := span_nonws t in (String c tok, rest)
  | EmptyString => (EmptyString, EmptyString)
  end.

Definition opt_sign (s : string) : bool * string :=
  match s with
  | String "-" t => (true, t)
  | String "+" t => (false, t)
  | _ => (false, s)
  end.

(** [take_digits base ok val s acc n] reads the longest run of digits at
    the head of [s]: the number read after [acc], how many digits were
    read after [n], and the rest. *)
Fixpoint take_digits (base : Z) (ok : ascii -> bool) (val : ascii -> Z)
    (s : string) (acc : Z) (n : Z) : Z * Z * string :=
  match s with
  | String c t =>
      if ok c then take_digits base ok val t (base * acc + val c) (n + 1)
      else (acc, n, s)
  | EmptyString => (acc, n, s)
  end.

Definition take_dec := take_digits 10 isdigit digit_val.
Definition take_hex := take_digits 16 isxdigit xdigit_val.

Fixpoint lower (s : string) : string :=
  match s with
  | String c t => String (tolower c) (lower t)
  | EmptyString => EmptyString
  end.

(** [strip p s] removes the prefix [p] from [s], if it is there. *)
Fixpoint strip (p s : string) : option string :=
  match p, s with
  | EmptyString, _ => Some s
  | String a p', String b s' => if Ascii.eqb a b then strip p' s' else None
  | String _ _, EmptyString => None
  end.

(** An exponent part, introduced by [mark] ('e' or 'p'): a sign and at
    least one decimal digit.  When the mark is not there, or is there
    without a digit after it, the number ends before it and its exponent
    is 0. *)
Definition scan_exponent (mark : ascii) (s : string) : option Z :=
  match s with
  | String c t =>
      if Ascii.eqb (tolower c) mark then
        let '(eneg, t1) := opt_sign t in
        let '(ev, n, _) := take_dec t1 0 0 in
        if n =? 0 then Some 0 else Some (if eneg then - ev else ev)
      else Some 0
  | EmptyString => Some 0
  end.

(** A decimal number: digits with an optional point, at least one digit, an
    optional exponent. *)
Definition scan_decimal (neg : bool) (s : string) : option F32.float :=
  let '(ip, n1, s1) := take_dec s 0 0 in
  let '(m, n2, s2) :=
    match s1 with
    | String "." t => take_dec t ip 0
    | _ => (ip, 0, s1)
    end in
  if n1 + n2 =? 0 then None
  else match scan_exponent "e" s2 with
       | Some e => Some (F32.of_decimal neg m (e - n2))
       | None => None
       end.

(** A hexadecimal number, after its [0x]: at least one digit.  Without a
    digit nothing is converted, but for a point after the [x]: the library
    then hands [0x.] to [strtod], which reads the [0] before the [x]. *)
Definition scan_hex (neg : bool) (s : string) : option F32.float :=
  let '(ip, n1, s1) := take_hex s 0 0 in
  let '(m, n2, s2) :=
    match s1 with
    | String "." t => take_hex t ip 0
    | _ => (ip, 0, s1)
    end in
  if n1 + n2 =? 0 then
    match s1 with
    | String "." _ => Some (S754_zero neg)
    | _ => None
    end
  else match scan_exponent "p" s2 with
       | Some e => Some (F32.of_binary neg m (e - 4 * n2))
       | None => None
       end.

(** [inf] or [infinity], in any case. *)
Definition scan_inf (neg : bool) (s : string) : option F32.float :=
  match strip "inf" (lower s) with
  | Some (String "i" t) =>
      match strip "nity" t with
      | Some _ => Some (F32.infinity neg)
      | None => None
      end
  | Some _ => Some (F32.infinity neg)
  | None => None
  end.

(** [nan], in any case; what follows it is not looked at. *)
Definition scan_nan (s : string) : option F32.float :=
  match strip "nan" (lower s) with
  | Some _ => Some F32.nan
  | None => None
  end.

(** The [%f] conversion on [tok], a run of characters without white space:
    the value of the number [tok] begins with, [None] when it begins with
    none. *)
Definition scan_float (tok : string) : option F32.float :=
  let '(neg, s) := opt_sign tok in
  match s with
  | String c t =>
      if Ascii.eqb (tolower c) "i" then scan_inf neg s
      else if Ascii.eqb (tolower c) "n" then scan_nan s
      else if Ascii.eqb c "0" then
        match t with
        | String x t' =>
            if Ascii.eqb (tolower x) "x" then scan_hex neg t'
            else scan_decimal neg s
        | EmptyString => scan_decimal neg s
        end
      else scan_decimal neg s
  | EmptyString => None
  end.

End Scan.

(** ** Formatted output: the [%.2f] conversion *)

Module Fmt.

Definition dec (n : Z) : string :=
  NilZero.string_of_uint (N.to_uint (Z.to_N n)).

Definition digit (d : Z) : ascii := ascii_of_N (Z.to_N (48 + d)).

(** [num / den] rounded to the nearest integer, ties to even. *)
Definition round_half_even (num den : Z) : Z :=
  let q := num / den in
  let r := num mod den in
  match 2 * r ?= den with
  | Lt => q
  | Gt => q + 1
  | Eq => if Z.even q then q else q + 1
  end.

(** The number of hundredths nearest to [m * 2^e]. *)
Definition hundredths (m : positive) (e : Z) : Z :=
  if 0 <=? e then Zpos m * 2 ^ e * 100
  else round_half_even (Zpos m * 100) (2 ^ (- e)).

Definition sign (neg : bool) : string := if neg then "-" else "".

Definition fixed2 (h : Z) : string :=
  dec (h / 100) ++ "." ++ String (digit (h mod 100 / 10))
                            (String (digit (h mod 10)) "").

(** A [float] argument is promoted to [double], which is exact, and
    printed with two digits after the point.  [spec_float] keeps no sign
    for a NaN: the text given for it is that of a NaN without a sign. *)
Definition fmt_2f (v : F32.float) : string :=
  match v with
  | S754_nan => "nan"
  | S754_infinity s => sign s ++ "inf"
  | S754_zero s => sign s ++ "0.00"
  | S754_finite s m e => sign s ++ fixed2 (hundredths m e)
  end.

End Fmt.

(** ** The program *)

(** A Win32 [HANDLE], as an integer. *)
Definition HANDLE : Type := Z.
Definition NULL : HANDLE := 0.
Definition INVALID_HANDLE_VALUE : HANDLE := -1.
Definition CBR_9600 : Z := 9600.

Definition wrap_int (z : Z) : Z := (z + 2 ^ 31) mod 2 ^ 32 - 2 ^ 31.

Record SensorData := {
  id : string;          (* char id[10] *)
  value : F32.float
}.

Record SensorStats := {
  min_limit : F32.float;
  max_limit : F32.float;
  total_value : F32.float;
  max_value : F32.float;
  min_value : F32.float;
  count : Z             (* int *)
}.

Record SerialPortInfo := {
  port_name : string;   (* char port_name[10] *)
  hSerial : HANDLE
}.

(** The lines the program prints on standard output, one constructor per
    [printf] of the source. *)
Inductive log_line :=
| ErrOpenPort (port : string)
| ErrGetState (port : string)
| ErrSetState (port : string)
| ErrEmptyId
| ErrOutOfRange (v : F32.float)
| ErrOpenFile (filename : string)
| Alert (sensor_id port : string) (v lo hi : F32.float)
| Reading (port sensor_id : string) (v : F32.float)
| ErrInvalidFormat (buffer : string)
| ErrReadFailed (port : string)
| ErrCreateThread (port : string)
| AllFinished.

Definition nl : string := String (ascii_of_N 10) "".

(** The text of each line, as its format string gives it. *)
Definition render (l : log_line) : string :=
  match l with
  | ErrOpenPort p => "[ERROR] Unable to open serial port " ++ p ++ nl
  | ErrGetState p => "[ERROR] Failed to get serial port state " ++ p ++ nl
  | ErrSetState p => "[ERROR] Failed to set serial port state " ++ p ++ nl
  | ErrEmptyId => "[ERROR] Sensor ID is empty." ++ nl
  | ErrOutOfRange v =>
      "[ERROR] Sensor value out of realistic range: " ++ Fmt.fmt_2f v ++ nl
  | ErrOpenFile f => "[ERROR] Unable to open file " ++ f ++ " for logging." ++ nl
  | Alert i p v lo hi =>
      "[ALERT] " ++ i ++ " out of range on " ++ p ++ "! Value: "
        ++ Fmt.fmt_2f v ++ " (Limits: " ++ Fmt.fmt_2f lo ++ " - "
        ++ Fmt.fmt_2f hi ++ ")" ++ nl
  | Reading p i v =>
      "[" ++ p ++ "] Sensor: " ++ i ++ ", Value: " ++ Fmt.fmt_2f v ++ nl
  | ErrInvalidFormat b => "[ERROR] Invalid data format: " ++ Scan.c_str b ++ nl
  | ErrReadFailed p => "[ERROR] Failed to read from port " ++ p ++ nl
  | ErrCreateThread p => "[ERROR] Unable to create thread for port " ++ p ++ nl
  | AllFinished => "All threads finished." ++ nl
  end.

(** What the program does to the world, in program order. *)
Inductive event :=
| Printf (l : log_line)
| Fprintf (filename text : string)     (* fopen(.., "a"), fprintf, fclose *)
| CloseHandle (h : HANDLE)
| Free (port : string)                 (* free(port_info) *)
| Sleep (ms : Z)
| BeginThread (info : SerialPortInfo) (thread : HANDLE)
| WaitForMultipleObjects (nCount : Z) (handles : list (option HANDLE)).

Local Open Scope list_scope.

(** *** [setup_serial] *)

(** What the operating system answers while a port is opened. *)
Record serial_env := {
  CreateFile_result : HANDLE;
  GetCommState_ok : bool;
  SetCommState_ok : bool
}.

Definition setup_serial (port : string) (baud_rate : Z) (env : serial_env)
  : HANDLE * list event :=
  let h := CreateFile_result env in
  if h =? INVALID_HANDLE_VALUE then (NULL, [Printf (ErrOpenPort port)])
  else if negb (GetCommState_ok env)
  then (NULL, [Printf (ErrGetState port); CloseHandle h])
  else if negb (SetCommState_ok env)
  then (NULL, [Printf (ErrSetState port); CloseHandle h])
  else (h, []).

(** *** [validate_data] *)

Definition validate_data (sensor : SensorData) : Z * list event :=
  if (String.length (id sensor) =? 0)%nat then (0, [Printf ErrEmptyId])
  else if F32.ltb (value sensor) (F32.of_Z 0)
          || F32.gtb (value sensor) (F32.of_Z 1000)
  then (0, [Printf (ErrOutOfRange (value sensor))])
  else (1, []).

(** *** [log_to_csv] *)

Definition csv_line (port : string) (sensor : SensorData) : string :=
  (port ++ "," ++ id sensor ++ "," ++ Fmt.fmt_2f (value sensor) ++ nl)%string.

(** [fopen_ok] tells whether [fopen(filename, "a")] succeeds. *)
Definition log_to_csv (filename port : string) (sensor : SensorData)
    (fopen_ok : bool) : list event :=
  if fopen_ok then [Fprintf filename (csv_line port sensor)]
  else [Printf (ErrOpenFile filename)].

(** *** [monitor_quality] *)

Definition monitor_quality (sensor : SensorData) (stats : SensorStats)
    (port : string) : SensorStats * list event :=
  let v := value sensor in
  let stats' := {|
    min_limit := min_limit stats;
    max_limit := max_limit stats;
    total_value := F32.add (total_value stats) v;
    max_value := if F32.gtb v (max_value stats) then v else max_value stats;
    min_value := if F32.ltb v (min_value stats) then v else min_value stats;
    count := wrap_int (count stats + 1)
  |} in
  (stats',
   if F32.ltb v (min_limit stats') || F32.gtb v (max_limit stats')
   then [Printf (Alert (id sensor) port v (min_limit stats') (max_limit stats'))]
   else []).

(** *** [read_serial_thread] *)

(** The result of [sscanf(buffer, "%s %f", sensor.id, &sensor.value)]. *)
Inductive scan_result :=
| ScanEOF                                  (* returns EOF: nothing to read *)
| ScanOne (tok : string)                   (* returns 1: no number follows *)
| ScanTwo (tok : string) (v : F32.float)   (* returns 2 *)
| ScanOverrun.      (* the token does not fit [char id[10]]: undefined *)

Definition ID_SIZE : nat := 10.

Definition sscanf_s_f (buffer : string) : scan_result :=
  match Scan.skip_ws (Scan.c_str buffer) with
  | EmptyString => ScanEOF
  | s =>
      let '(tok, rest) := Scan.span_nonws s in
      if (ID_SIZE <=? String.length tok)%nat then ScanOverrun
      else
        match Scan.skip_ws rest with
        | EmptyString => ScanOne tok
        | r =>
            match Scan.scan_float (fst (Scan.span_nonws r)) with
            | Some v => ScanTwo tok v
            | None => ScanOne tok
            end
        end
  end.

(** The default limits and the starting values of a worker's statistics:
    [{5.0, 25.0, 0.0, -1000.0, 1000.0, 0}]. *)
Definition initial_stats : SensorStats := {|
  min_limit := F32.of_Z 5;
  max_limit := F32.of_Z 25;
  total_value := F32.zero;
  max_value := F32.of_Z (-1000);
  min_value := F32.of_Z 1000;
  count := 0
|}.

Definition csv_file : string := "sensor_data.csv".

(** What the environment gives to one turn of the loop: the bytes
    [ReadFile] delivered, at most 255 of them ([None] when it fails), and
    whether the CSV file can be opened. *)
Record poll := {
  ReadFile_result : option string;
  fopen_ok : bool
}.

(** The body of [if (ReadFile(...))]: scan, validate, log, monitor.
    [None] stands for undefined behaviour.  The variable [sensor] is read
    only after [sscanf] has set both of its fields, so that what an earlier
    turn left in it does not matter. *)
Definition handle_frame (info : SerialPortInfo) (buffer : string)
    (can_open : bool) (stats : SensorStats) : option (SensorStats * list event) :=
  let invalid := Some (stats, [Printf (ErrInvalidFormat buffer)]) in
  match sscanf_s_f buffer with
  | ScanOverrun => None
  | ScanEOF | ScanOne _ => invalid
  | ScanTwo tok v =>
      let sensor := {| id := tok; value := v |} in
      let '(ok, ev1) := validate_data sensor in
      if ok =? 0 then Some (stats, ev1 ++ [Printf (ErrInvalidFormat buffer)])
      else
        let ev2 := [Printf (Reading (port_name info) (id sensor) (value sensor))] in
        let ev3 := log_to_csv csv_file (port_name info) sensor can_open in
        let '(stats', ev4) := monitor_quality sensor stats (port_name info) in
        Some (stats', ev1 ++ ev2 ++ ev3 ++ ev4)
  end.

(** How far a worker got on the polls it was given. *)
Inductive progress :=
| Polling      (* still in [while (1)], waiting for the next read *)
| Broke        (* left the loop through [break] *)
| Undefined.   (* ran into undefined behaviour *)

(** [while (1) { ... }] on the successive answers of the environment. *)
Fixpoint polling_loop (info : SerialPortInfo) (polls : list poll)
    (stats : SensorStats) : progress * SensorStats * list event :=
  match polls with
  | [] => (Polling, stats, [])
  | p :: polls' =>
      match ReadFile_result p with
      | None => (Broke, stats, [Printf (ErrReadFailed (port_name info))])
      | Some buffer =>
          match handle_frame info buffer (fopen_ok p) stats with
          | None => (Undefined, stats, [])
          | Some (stats', ev) =>
              let '(pr, stats'', ev') := polling_loop info polls' stats' in
              (pr, stats'', ev ++ Sleep 1000 :: ev')
          end
      end
  end.

(** The outcome of a thread: [Some 0] once it has returned. *)
Definition read_serial_thread (info : SerialPortInfo) (polls : list poll)
  : progress * option Z * SensorStats * list event :=
  let '(pr, stats, ev) := polling_loop info polls initial_stats in
  match pr with
  | Broke =>
      (pr, Some 0, stats, ev ++ [CloseHandle (hSerial info); Free (port_name info)])
  | _ => (pr, None, stats, ev)
  end.

(** *** [main] *)

(** What the environment answers while one port is started. *)
Record startup_env := {
  serial : serial_env;
  beginthreadex_result : HANDLE     (* [NULL] when no thread was created *)
}.

Fixpoint array_set {A} (a : list A) (i : nat) (x : A) : list A :=
  match a, i with
  | [], _ => []
  | _ :: a', O => x :: a'
  | y :: a', S i' => y :: array_set a' i' x
  end.

(** The [for] loop of [main] from index [i] on; [threads] is the array of
    thread handles, its slots [None] as long as nothing was stored. *)
Fixpoint start_ports (ports : list (string * startup_env)) (i : nat)
    (threads : list (option HANDLE)) : list (option HANDLE) * list event :=
  match ports with
  | [] => (threads, [])
  | (name, env) :: ports' =>
      let '(h, ev1) := setup_serial name CBR_9600 (serial env) in
      if h =? NULL then
        let '(threads', ev) := start_ports ports' (S i) threads in
        (threads', ev1 ++ Free name :: ev)
      else
        let info := {| port_name := name; hSerial := h |} in
        let t := beginthreadex_result env in
        let threads1 := array_set threads i (Some t) in
        let ev2 :=
          if t =? NULL
          then [Printf (ErrCreateThread name); CloseHandle h; Free name]
          else [BeginThread info t] in
        let '(threads', ev) := start_ports ports' (S i) threads1 in
        (threads', ev1 ++ ev2 ++ ev)
  end.

Definition main_on (ports : list (string * startup_env)) : Z * list event :=
  let num_ports := List.length ports in
  let '(threads, ev) := start_ports ports 0 (repeat None num_ports) in
  (0, ev ++ [WaitForMultipleObjects (Z.of_nat num_ports) threads;
             Printf AllFinished]).

(** The program's own list of ports. *)
Definition main (e3 e4 e5 : startup_env) : Z * list event :=
  main_on [("COM3", e3); ("COM4", e4); ("COM5", e5)].

(** ** Notions the properties are stated with *)

(** Recording a sequence of readings, in order, into a statistics state. *)
Definition record_all (port : string) (readings : list SensorData)
    (stats : SensorStats) : SensorStats :=
  fold_left (fun s r => fst (monitor_quality r s port)) readings stats.

(** Whether [monitor_quality] printed its alert. *)
Definition is_alert (e : event) : bool :=
  match e with Printf (Alert _ _ _ _ _) => true | _ => false end.

Definition is_fprintf (e : event) : bool :=
  match e with Fprintf _ _ => true | _ => false end.

Definition is_close (e : event) : bool :=
  match e with CloseHandle _ => true | _ => false end.

Definition alerted (r : SensorStats * list event) : bool :=
  existsb is_alert (snd r).

(** The value lies in the documented range [0, 1000]. *)
Definition in_range (v : F32.float) : bool :=
  F32.leb (F32.of_Z 0) v && F32.leb v (F32.of_Z 1000).




(** The frame fits [sensor.id] and is turned down by the scanner or by the
    validator. *)
Definition rejected (buffer : string) : bool :=
  match sscanf_s_f buffer with
  | ScanEOF | ScanOne _ => true
  | ScanTwo tok v => fst (validate_data {| id := tok; value := v |}) =? 0
  | ScanOverrun => false
  end.

(** The frame is scanned without running over [sensor.id]. *)
Definition fits_id (buffer : string) : bool :=
  match sscanf_s_f buffer with ScanOverrun => false | _ => true end.

(** A successful read of [buffer]. *)
Definition read_ok (buffer : string) (can_open : bool) : poll :=
  {| ReadFile_result := Some buffer; fopen_ok := can_open |}.

Definition read_failed (can_open : bool) : poll :=
  {| ReadFile_result := None; fopen_ok := can_open |}.

(** Every alert of the trace comes before every write to the CSV file. *)
Definition alert_before_persist (ev : list event) : Prop :=
  forall i j a f,
    nth_error ev i = Some a -> is_alert a = true ->
    nth_error ev j = Some f -> is_fprintf f = true -> (i < j)%nat.

(** Every write to the CSV file comes before every alert of the trace. *)
Definition persist_before_alert (ev : list event) : Prop :=
  forall i j a f,
    nth_error ev i = Some a -> is_alert a = true ->
    nth_error ev j = Some f -> is_fprintf f = true -> (j < i)%nat.

(** The threads [main] started, in order. *)
Fixpoint started (ev : list event) : list (SerialPortInfo * HANDLE) :=
  match ev with
  | BeginThread info t :: ev' => (info, t) :: started ev'
  | _ :: ev' => started ev'
  | [] => []
  end.

(** The arguments of the calls of [WaitForMultipleObjects]. *)
Fixpoint waits (ev : list event) : list (Z * list (option HANDLE)) :=
  match ev with
  | WaitForMultipleObjects n hs :: ev' => (n, hs) :: waits ev'
  | _ :: ev' => waits ev'
  | [] => []
  end.

(** How often the character [c] occurs in [s]. *)
Fixpoint occurrences (c : ascii) (s : string) : nat :=
  match s with
  | String d t => ((if Ascii.eqb c d then 1 else 0) + occurrences c t)%nat
  | EmptyString => O
  end.

Definition comma : ascii := ",".
Definition newline : ascii := ascii_of_N 10.

(** The fields of a frame: its maximal runs of characters without white
    space. *)
Definition starts_field (s : string) : bool :=
  match s with
  | String c _ => negb (Scan.isspace c)
  | EmptyString => false
  end.

Fixpoint fields (s : string) : list string :=
  match s with
  | EmptyString => []
  | String c t =>
      if Scan.isspace c then fields t
      else if starts_field t then
             match fields t with
             | f :: fs => String c f :: fs
             | [] => [String c EmptyString]
             end
           else String c EmptyString :: fields t
  end.

(** Reads that succeed, on frames that fit [sensor.id]. *)
Definition all_read_ok (polls : list poll) : Prop :=
  Forall (fun p => exists buffer,
              ReadFile_result p = Some buffer /\ fits_id buffer = true) polls.

(** A reading of the sensor "TEMP", and the worker of port "COM3". *)
Definition temp (v : F32.float) : SensorData := {| id := "TEMP"; value := v |}.

Definition com3 : SerialPortInfo := {| port_name := "COM3"; hSerial := 7 |}.

(** What [main] leaves in the slot of a port in [threads], and the worker
    it started for it, if any. *)
Definition slot_of (p : string * startup_env) : option HANDLE :=
  let '(name, env) := p in
  if fst (setup_serial name CBR_9600 (serial env)) =? NULL then None
  else Some (beginthreadex_result env).

Definition worker_of (p : string * startup_env) : list (SerialPortInfo * HANDLE) :=
  let '(name, env) := p in
  let h := fst (setup_serial name CBR_9600 (serial env)) in
  if (h =? NULL) || (beginthreadex_result env =? NULL) then []
  else [({| port_name := name; hSerial := h |}, beginthreadex_result env)].

(** A port that opens with handle [h] and gets the thread [t], and a port
    that cannot be opened. *)
Definition port_up (h t : HANDLE) : startup_env :=
  {| serial := {| CreateFile_result := h; GetCommState_ok := true;
                  SetCommState_ok := true |};
     beginthreadex_result := t |}.

Definition port_down : startup_env :=
  {| serial := {| CreateFile_result := INVALID_HANDLE_VALUE;
                  GetCommState_ok := true; SetCommState_ok := true |};
     beginthreadex_result := 0 |}.

(** The handles closed, the port records freed and the texts written to
    files along a trace, in order. *)
Fixpoint closes (ev : list event) : list HANDLE :=
  match ev with
  | CloseHandle h :: ev' => h :: closes ev'
  | _ :: ev' => closes ev'
  | [] => []
  end.

Fixpoint frees (ev : list event) : list string :=
  match ev with
  | Free name :: ev' => name :: frees ev'
  | _ :: ev' => frees ev'
  | [] => []
  end.

Fixpoint written (ev : list event) : list string :=
  match ev with
  | Fprintf _ text :: ev' => text :: written ev'
  | _ :: ev' => written ev'
  | [] => []
  end.

Definition is_sleep (e : event) : bool :=
  match e with Sleep _ => true | _ => false end.

(** The handle [CreateFile] gave for a port, if it gave one. *)
Definition opened_of (p : string * startup_env) : list HANDLE :=
  let h := CreateFile_result (serial (snd p)) in
  if h =? INVALID_HANDLE_VALUE then [] else [h].

(** The port gets its worker. *)
Definition starts (p : string * startup_env) : bool :=
  match worker_of p with [] => false | _ :: _ => true end.

(** The handle of the thread of a started worker, as a slot of [threads]. *)
Definition thread_slot (w : SerialPortInfo * HANDLE) : option HANDLE :=
  Some (snd w).

(** The reading a frame gives when it is scanned and validated. *)
Definition accepted (buffer : string) : option SensorData :=
  match sscanf_s_f buffer with
  | ScanTwo tok v =>
      if fst (validate_data {| id := tok; value := v |}) =? 0 then None
      else Some {| id := tok; value := v |}
  | _ => None
  end.

(** The readings accepted on the polls up to the first read that fails, each
    with the answer [fopen] gives when it is logged. *)
Fixpoint accepted_readings (polls : list poll) : list (SensorData * bool) :=
  match polls with
  | [] => []
  | p :: polls' =>
      match ReadFile_result p with
      | None => []
      | Some buffer =>
          match accepted buffer with
          | Some r => (r, fopen_ok p) :: accepted_readings polls'
          | None => accepted_readings polls'
          end
      end
  end.

(** A string that [%s] reads back as it is: not empty, without white
    space and without NUL. *)
Fixpoint no_blank (s : string) : bool :=
  match s with
  | String c t =>
      negb (Scan.isspace c) && negb (Scan.code c =? 0) && no_blank t
  | EmptyString => true
  end.

Definition is_token (s : string) : bool :=
  match s with EmptyString => false | _ => no_blank s end.

(** The pieces of [s] between the occurrences of [c]. *)
Fixpoint split_on (c : ascii) (s : string) : list string :=
  match s with
  | EmptyString => [EmptyString]
  | String d t =>
      if Ascii.eqb c d then EmptyString :: split_on c t
      else match split_on c t with
           | f :: fs => String d f :: fs
           | [] => [String d EmptyString]
           end
  end.

(** What the extremes of a worker's statistics keep true: neither is a NaN,
    the minimum is at most its start value 1000.0 and the maximum at least
    its start value -1000.0. *)
Definition extremes_ok (s : SensorStats) : Prop :=
  F32.is_nan (min_value s) = false /\ F32.is_nan (max_value s) = false
  /\ F32.leb (min_value s) (F32.of_Z 1000) = true
  /\ F32.leb (F32.of_Z (-1000)) (max_value s) = true.

(** An event that is a line on standard output or in a file. *)
Definition is_output (e : event) : bool :=
  match e with Printf _ | Fprintf _ _ => true | _ => false end.






(** A key on which the comparison of numbers is lexicographic; none for a
    NaN, which compares with nothing. *)
Definition rank (x : F32.float) : option (Z * Z * Z) :=
  match x with
  | S754_nan => None
  | S754_infinity true => Some (-2, 0, 0)
  | S754_infinity false => Some (2, 0, 0)
  | S754_zero _ => Some (0, 0, 0)
  | S754_finite true m e => Some (-1, - e, Zneg m)
  | S754_finite false m e => Some (1, e, Zpos m)
  end.

Definition lex3 (a b : Z * Z * Z) : comparison :=
  let '(a1, a2, a3) := a in
  let '(b1, b2, b3) := b in
  match a1 ?= b1 with
  | Eq => match a2 ?= b2 with Eq => a3 ?= b3 | c => c end
  | c => c
  end.

Definition lt3 (a b : Z * Z * Z) : Prop :=
  let '(a1, a2, a3) := a in
  let '(b1, b2, b3) := b in
  a1 < b1 \/ (a1 = b1 /\ (a2 < b2 \/ (a2 = b2 /\ a3 < b3))).

(** * Properties *)

(** ** Order on single precision numbers *)

Section Order.

Lemma lex3_Lt a b : lex3 a b = Lt <-> lt3 a b.
Proof.
  destruct a as [[a1 a2] a3], b as [[b1 b2] b3]; unfold lex3, lt3.
  destruct (Z.compare_spec a1 b1), (Z.compare_spec a2 b2),
    (Z.compare_spec a3 b3); split; intros; try discriminate;
    try reflexivity; lia.
Qed.

Lemma lex3_Eq a b : lex3 a b = Eq <-> a = b.
Proof.
  destruct a as [[a1 a2] a3], b as [[b1 b2] b3]; unfold lex3.
  destruct (Z.compare_spec a1 b1), (Z.compare_spec a2 b2),
    (Z.compare_spec a3 b3); split; intros H'; try discriminate;
    try reflexivity; try (inversion H'; lia); subst; reflexivity.
Qed.

Lemma lex3_Gt a b : lex3 a b = Gt <-> lt3 b a.
Proof.
  destruct a as [[a1 a2] a3], b as [[b1 b2] b3]; unfold lex3, lt3.
  destruct (Z.compare_spec a1 b1), (Z.compare_spec a2 b2),
    (Z.compare_spec a3 b3); split; intros; try discriminate;
    try reflexivity; lia.
Qed.

Lemma compare_rank x y :
  SFcompare x y =
  match rank x, rank y with
  | Some a, Some b => Some (lex3 a b)
  | _, _ => None
  end.
Proof.
  destruct x as [sx|sx| |sx mx ex], y as [sy|sy| |sy my ey];
    try destruct sx; try destruct sy; try reflexivity; simpl.
  rewrite Pos.compare_cont_spec, Z.compare_opp, (Z.compare_antisym ex ey).
  destruct (ex ?= ey), (mx ?= my)%positive; reflexivity.
Qed.

Lemma ltb_rank x y :
  F32.ltb x y = true <->
  exists a b, rank x = Some a /\ rank y = Some b /\ lt3 a b.
Proof.
  unfold F32.ltb, SFltb. rewrite compare_rank.
  destruct (rank x) as [a|], (rank y) as [b|];
    try (split; [discriminate | intros (? & ? & ? & ? & ?); discriminate]).
  split.
  - destruct (lex3 a b) eqn:E; try discriminate.
    intros _. exists a, b. rewrite <- lex3_Lt. auto.
  - intros (a' & b' & Ha & Hb & Hlt). inversion Ha; inversion Hb; subst.
    apply lex3_Lt in Hlt. rewrite Hlt. reflexivity.
Qed.

Lemma leb_rank x y :
  F32.leb x y = true <->
  exists a b, rank x = Some a /\ rank y = Some b /\ (lt3 a b \/ a = b).
Proof.
  unfold F32.leb, SFleb. rewrite compare_rank.
  destruct (rank x) as [a|], (rank y) as [b|];
    try (split; [discriminate | intros (? & ? & ? & ? & ?); discriminate]).
  split.
  - destruct (lex3 a b) eqn:E; try discriminate; intros _; exists a, b.
    + apply lex3_Eq in E. auto.
    + apply lex3_Lt in E. auto.
  - intros (a' & b' & Ha & Hb & Hlt). inversion Ha; inversion Hb; subst.
    destruct Hlt as [Hlt | Heq].
    + apply lex3_Lt in Hlt. rewrite Hlt. reflexivity.
    + apply lex3_Eq in Heq. rewrite Heq. reflexivity.
Qed.

Lemma eqb_rank x y :
  F32.eqb x y = true <-> exists a, rank x = Some a /\ rank y = Some a.
Proof.
  unfold F32.eqb, SFeqb. rewrite compare_rank.
  destruct (rank x) as [a|], (rank y) as [b|];
    try (split; [discriminate | intros (? & ? & ?); discriminate]).
  split.
  - destruct (lex3 a b) eqn:E; try discriminate; intros _.
    apply lex3_Eq in E. subst. eauto.
  - intros (a' & Ha & Hb). inversion Ha; inversion Hb; subst.
    match goal with
    | |- context [lex3 ?u ?v] =>
        assert (E : lex3 u v = Eq) by (apply lex3_Eq; reflexivity);
        rewrite E; reflexivity
    end.
Qed.

Lemma lt3_irrefl a : ~ lt3 a a.
Proof. destruct a as [[a1 a2] a3]; unfold lt3; lia. Qed.

Lemma lt3_trans a b c : lt3 a b -> lt3 b c -> lt3 a c.
Proof.
  destruct a as [[a1 a2] a3], b as [[b1 b2] b3], c as [[c1 c2] c3].
  unfold lt3; lia.
Qed.

Lemma lt3_total a b : lt3 a b \/ a = b \/ lt3 b a.
Proof.
  destruct a as [[a1 a2] a3], b as [[b1 b2] b3]. unfold lt3.
  destruct (Z.lt_trichotomy a1 b1) as [?|[?|?]],
    (Z.lt_trichotomy a2 b2) as [?|[?|?]],
    (Z.lt_trichotomy a3 b3) as [?|[?|?]]; subst; auto; lia.
Qed.

Lemma ltb_false_rank x y a b :
  rank x = Some a -> rank y = Some b ->
  F32.ltb x y = false -> lt3 b a \/ a = b.
Proof.
  intros Ha Hb Hf.
  destruct (lt3_total a b) as [H|[H|H]]; auto.
  assert (F32.ltb x y = true) by (apply ltb_rank; eauto).
  congruence.
Qed.

(** No number is below itself, and a NaN is below nothing. *)
Lemma ltb_irrefl x : F32.ltb x x = false.
Proof.
  destruct (F32.ltb x x) eqn:E; [|reflexivity].
  apply ltb_rank in E. destruct E as (a & b & Ha & Hb & Hlt).
  rewrite Ha in Hb. inversion Hb; subst. destruct (lt3_irrefl _ Hlt).
Qed.

Lemma leb_ltb_false x y : F32.leb x y = true -> F32.ltb y x = false.
Proof.
  intros H. destruct (F32.ltb y x) eqn:E; [|reflexivity].
  apply leb_rank in H. destruct H as (a & b & Ha & Hb & H).
  apply ltb_rank in E. destruct E as (b' & a' & Hb' & Ha' & Hlt).
  rewrite Ha in Ha'. rewrite Hb in Hb'. inversion Ha'; inversion Hb'; subst.
  destruct H as [H | H].
  - destruct (lt3_irrefl _ (lt3_trans _ _ _ H Hlt)).
  - subst. destruct (lt3_irrefl _ Hlt).
Qed.

Lemma leb_trans x y z :
  F32.leb x y = true -> F32.leb y z = true -> F32.leb x z = true.
Proof.
  intros H1 H2.
  apply leb_rank in H1. destruct H1 as (a & b & Ha & Hb & H1).
  apply leb_rank in H2. destruct H2 as (b' & c & Hb' & Hc & H2).
  rewrite Hb in Hb'. inversion Hb'; subst.
  apply leb_rank. exists a, c. repeat split; auto.
  destruct H1 as [H1|H1], H2 as [H2|H2]; subst; auto.
  left. eapply lt3_trans; eauto.
Qed.

Lemma ltb_leb x y : F32.ltb x y = true -> F32.leb x y = true.
Proof.
  intros H. apply ltb_rank in H. destruct H as (a & b & Ha & Hb & H).
  apply leb_rank. eauto 6.
Qed.

Lemma eqb_leb x y : F32.eqb x y = true -> F32.leb x y = true.
Proof.
  intros H. apply eqb_rank in H. destruct H as (a & Ha & Hb).
  apply leb_rank. eauto 6.
Qed.

Lemma eqb_sym x y : F32.eqb x y = true -> F32.eqb y x = true.
Proof.
  intros H. apply eqb_rank in H. destruct H as (a & Ha & Hb).
  apply eqb_rank. eauto.
Qed.

Lemma leb_refl x : F32.is_nan x = false -> F32.leb x x = true.
Proof.
  intros H. apply leb_rank.
  destruct x as [s|s| |s m e]; try discriminate; destruct s; simpl; eauto 6.
Qed.

(** Two numbers, neither of them a NaN, are comparable. *)
Lemma ltb_false_leb x y :
  F32.is_nan x = false -> F32.is_nan y = false ->
  F32.ltb x y = false -> F32.leb y x = true.
Proof.
  intros Hx Hy H.
  assert (Rx : exists a, rank x = Some a)
    by (destruct x as [s|s| |s m e]; try discriminate; destruct s; simpl; eauto).
  assert (Ry : exists b, rank y = Some b)
    by (destruct y as [s|s| |s m e]; try discriminate; destruct s; simpl; eauto).
  destruct Rx as (a & Ha), Ry as (b & Hb).
  apply leb_rank. exists b, a. repeat split; auto.
  destruct (ltb_false_rank _ _ _ _ Ha Hb H); auto.
Qed.

Lemma leb_not_nan x y :
  F32.leb x y = true -> F32.is_nan x = false /\ F32.is_nan y = false.
Proof.
  intros H. apply leb_rank in H. destruct H as (a & b & Ha & Hb & _).
  destruct x, y; try discriminate; auto.
Qed.


End Order.

(** ** [int] arithmetic *)




(** ** [monitor_quality]: the statistics *)

Section Statistics.

Variable port : string.

Lemma record_all_cons r l s :
  record_all port (r :: l) s = record_all port l (fst (monitor_quality r s port)).
Proof. reflexivity. Qed.

(** The limits are fixed when the state is created. *)
Lemma record_all_limits l s :
  min_limit (record_all port l s) = min_limit s /\
  max_limit (record_all port l s) = max_limit s.
Proof.
  revert s. induction l as [|r l IH]; intros s; [split; reflexivity|].
  rewrite record_all_cons. destruct (IH (fst (monitor_quality r s port))) as [H1 H2].
  rewrite H1, H2. split; reflexivity.
Qed.





End Statistics.








(** A number in the range is finite and not negative. *)
Lemma in_range_finite s m e :
  in_range (S754_finite s m e) = true ->
  s = false /\ (e < -14 \/ (e = -14 /\ Zpos m <= 16384000)).
Proof.
  unfold in_range.
  change (F32.of_Z 0) with (S754_zero false).
  change (F32.of_Z 1000) with (S754_finite false 16384000 (-14)).
  intros H. apply andb_true_iff in H. destruct H as [H0 H1].
  apply leb_rank in H0, H1.
  destruct H0 as (a & b & Ha & Hb & H0), H1 as (b' & c & Hb' & Hc & H1).
  destruct s; simpl in Ha, Hb, Hb', Hc;
    inversion Ha; inversion Hb; inversion Hb'; inversion Hc; subst;
    unfold lt3 in *.
  - exfalso. destruct H0 as [H0|H0]; [lia | discriminate].
  - split; [reflexivity|].
    destruct H1 as [H1|H1]; [lia | inversion H1; lia].
Qed.

(** ** The total of the readings

    [total_value] is a [float]: each [+=] rounds to the nearest binary32
    number.  The additions are followed through [SFadd] to see when none of
    them rounds. *)

Section Exact.


















End Exact.




(** ** [monitor_quality]: the alert *)

Lemma monitor_quality_events sensor stats port :
  snd (monitor_quality sensor stats port) =
  if F32.ltb (value sensor) (min_limit stats)
     || F32.gtb (value sensor) (max_limit stats)
  then [Printf (Alert (id sensor) port (value sensor)
                  (min_limit stats) (max_limit stats))]
  else [].
Proof. reflexivity. Qed.

Lemma alerted_iff sensor stats port :
  alerted (monitor_quality sensor stats port) = true <->
  F32.ltb (value sensor) (min_limit stats) = true
  \/ F32.gtb (value sensor) (max_limit stats) = true.
Proof.
  unfold alerted. rewrite monitor_quality_events, <- orb_true_iff.
  destruct (F32.ltb _ _ || F32.gtb _ _); simpl; intuition discriminate.
Qed.

Lemma boundary_not_alerted sensor stats port :
  F32.leb (min_limit stats) (max_limit stats) = true ->
  F32.eqb (value sensor) (min_limit stats) = true
  \/ F32.eqb (value sensor) (max_limit stats) = true ->
  alerted (monitor_quality sensor stats port) = false.
Proof.
  intros Hlim Hb.
  destruct (alerted (monitor_quality sensor stats port)) eqn:E; [|reflexivity].
  apply alerted_iff in E. unfold F32.gtb in E.
  assert (F32.leb (min_limit stats) (value sensor) = true
          /\ F32.leb (value sensor) (max_limit stats) = true) as [H1 H2].
  { destruct Hb as [Hb|Hb].
    - split; [apply eqb_leb, eqb_sym, Hb|].
      eapply leb_trans; [apply eqb_leb, Hb | exact Hlim].
    - split; [|apply eqb_leb, Hb].
      eapply leb_trans; [exact Hlim | apply eqb_leb, eqb_sym, Hb]. }
  apply leb_ltb_false in H1, H2. destruct E; congruence.
Qed.

(** C2. [monitor_quality] prints its alert, with the value and the two
    limits, if and only if the value is below [min_limit] or above
    [max_limit], both strictly.  A value equal to [min_limit] or to
    [max_limit] raises no alert in a state whose limits are in order, and so
    in every state of a worker, whose limits are 5.0 and 25.0 from its
    creation on. *)
Theorem monitor_quality_alert_iff :
  (forall sensor stats port,
      (alerted (monitor_quality sensor stats port) = true <->
       F32.ltb (value sensor) (min_limit stats) = true
       \/ F32.gtb (value sensor) (max_limit stats) = true)
      /\ snd (monitor_quality sensor stats port)
         = if alerted (monitor_quality sensor stats port)
           then [Printf (Alert (id sensor) port (value sensor)
                           (min_limit stats) (max_limit stats))]
           else [])
  /\ (forall sensor stats port,
      F32.leb (min_limit stats) (max_limit stats) = true ->
      F32.eqb (value sensor) (min_limit stats) = true
      \/ F32.eqb (value sensor) (max_limit stats) = true ->
      alerted (monitor_quality sensor stats port) = false)
  /\ (forall sensor port history,
      let stats := record_all port history initial_stats in
      F32.eqb (value sensor) (min_limit stats) = true
      \/ F32.eqb (value sensor) (max_limit stats) = true ->
      alerted (monitor_quality sensor stats port) = false).
Proof.
  split.
  { intros sensor stats port. split; [apply alerted_iff|].
    unfold alerted. rewrite monitor_quality_events.
    destruct (F32.ltb _ _ || F32.gtb _ _); reflexivity. }
  split; [exact boundary_not_alerted|].
  intros sensor port history stats. apply boundary_not_alerted.
  unfold stats. destruct (record_all_limits port history initial_stats) as [H1 H2].
  rewrite H1, H2. reflexivity.
Qed.

Lemma monitor_quality_alert_iff_witness :
  (F32.leb (min_limit initial_stats) (max_limit initial_stats) = true
   /\ F32.eqb (value (temp (F32.of_Z 25))) (max_limit initial_stats) = true)
  /\ alerted (monitor_quality (temp (F32.of_Z 25)) initial_stats "COM3") = false.
Proof.
  split; [split; reflexivity|].
  apply (proj1 (proj2 monitor_quality_alert_iff)); [reflexivity|].
  right; reflexivity.
Defined.

(** ** The scanner *)

Section Scanner.

Import Scan.

Lemma skip_ws_head s c t : skip_ws s = String c t -> isspace c = false.
Proof.
  induction s as [|d s IH]; simpl; [discriminate|].
  destruct (isspace d) eqn:E; [exact IH|].
  intros H. inversion H; subst. exact E.
Qed.

Lemma span_nonws_head c t :
  isspace c = false ->
  span_nonws (String c t)
  = (String c (fst (span_nonws t)), snd (span_nonws t)).
Proof.
  intros H. simpl. rewrite H. destruct (span_nonws t); reflexivity.
Qed.

(** No white space inside a token. *)
Lemma span_nonws_token s :
  forall c, In c (list_ascii_of_string (fst (span_nonws s))) -> isspace c = false.
Proof.
  induction s as [|d s IH]; simpl; [tauto|].
  destruct (isspace d) eqn:E; simpl; [tauto|].
  destruct (span_nonws s) as [tok rest]. simpl in *.
  intros c [H|H]; [subst; assumption | auto].
Qed.

(** What [sscanf] stored when it reports two conversions. *)
Lemma sscanf_two buffer tok v :
  sscanf_s_f buffer = ScanTwo tok v ->
  exists c t rest,
    skip_ws (c_str buffer) = String c t
    /\ isspace c = false
    /\ span_nonws (String c t) = (tok, rest)
    /\ (String.length tok < ID_SIZE)%nat
    /\ scan_float (fst (span_nonws (skip_ws rest))) = Some v.
Proof.
  unfold sscanf_s_f.
  destruct (skip_ws (c_str buffer)) as [|c t] eqn:Es; [discriminate|].
  pose proof (skip_ws_head _ _ _ Es) as Hc.
  destruct (span_nonws (String c t)) as [tok' rest] eqn:Et.
  destruct (ID_SIZE <=? String.length tok')%nat eqn:El; [discriminate|].
  apply Nat.leb_gt in El.
  destruct (skip_ws rest) as [|d r] eqn:Er; [discriminate|].
  destruct (scan_float (fst (span_nonws (String d r)))) as [v'|] eqn:Ef;
    [|discriminate].
  intros H. inversion H; subst.
  exists c, t, rest. rewrite Er. auto.
Qed.

Lemma sscanf_two_nonempty buffer tok v :
  sscanf_s_f buffer = ScanTwo tok v -> tok <> EmptyString.
Proof.
  intros H. apply sscanf_two in H.
  destruct H as (c & t & rest & _ & Hc & Et & _).
  rewrite span_nonws_head in Et by assumption.
  inversion Et. discriminate.
Qed.

End Scanner.

(** ** [validate_data] *)

Lemma validate_data_empty v :
  validate_data {| id := EmptyString; value := v |} = (0, [Printf ErrEmptyId]).
Proof. reflexivity. Qed.

Lemma validate_data_nonempty tok v :
  tok <> EmptyString ->
  validate_data {| id := tok; value := v |} =
  if F32.ltb v (F32.of_Z 0) || F32.gtb v (F32.of_Z 1000)
  then (0, [Printf (ErrOutOfRange v)]) else (1, []).
Proof.
  intros H. unfold validate_data. simpl id. simpl value.
  destruct tok; [congruence|]. reflexivity.
Qed.

(** A value in the range is let through. *)
Lemma validate_data_in_range tok v :
  tok <> EmptyString -> in_range v = true ->
  validate_data {| id := tok; value := v |} = (1, []).
Proof.
  intros H Hr. rewrite validate_data_nonempty by assumption.
  unfold in_range in Hr. apply andb_true_iff in Hr. destruct Hr as [H0 H1].
  apply leb_ltb_false in H0, H1. unfold F32.gtb. rewrite H0, H1. reflexivity.
Qed.


(** C10. When [sscanf] reports two converted fields the identifier it stored
    is not empty: [validate_data] never takes its empty-identifier branch on
    a frame that comes through the worker loop, and turns such a frame down
    only for a value out of range. *)
Theorem scanned_identifier_nonempty :
  forall (buffer tok : string) (v : F32.float),
    sscanf_s_f buffer = ScanTwo tok v ->
    let sensor := {| id := tok; value := v |} in
    tok <> EmptyString
    /\ ~ In (Printf ErrEmptyId) (snd (validate_data sensor))
    /\ (validate_data sensor = (1, [])
        \/ validate_data sensor = (0, [Printf (ErrOutOfRange v)])
           /\ (F32.ltb v (F32.of_Z 0) = true \/ F32.gtb v (F32.of_Z 1000) = true)).
Proof.
  intros buffer tok v H sensor.
  pose proof (sscanf_two_nonempty _ _ _ H) as Hne.
  unfold sensor. rewrite validate_data_nonempty by assumption.
  split; [assumption|].
  destruct (F32.ltb v (F32.of_Z 0) || F32.gtb v (F32.of_Z 1000)) eqn:E.
  - split; [simpl; intros [A|[]]; discriminate|].
    right. split; [reflexivity|]. apply orb_true_iff; assumption.
  - split; [simpl; tauto|]. left; reflexivity.
Qed.

Lemma scanned_identifier_nonempty_witness :
  sscanf_s_f "TEMP 1500" = ScanTwo "TEMP" (F32.of_Z 1500)
  /\ validate_data (temp (F32.of_Z 1500))
     = (0, [Printf (ErrOutOfRange (F32.of_Z 1500))]).
Proof.
  split; [reflexivity|].
  destruct (scanned_identifier_nonempty "TEMP 1500" "TEMP" (F32.of_Z 1500) eq_refl)
    as (_ & _ & [H | [H _]]); [discriminate H | exact H].
Defined.

(** Apart from a NaN, a value outside the range is turned down. *)
Lemma validate_data_out_of_range tok v :
  tok <> EmptyString -> F32.is_nan v = false -> in_range v = false ->
  validate_data {| id := tok; value := v |} = (0, [Printf (ErrOutOfRange v)]).
Proof.
  intros H Hn Hr. rewrite validate_data_nonempty by assumption.
  unfold F32.gtb.
  destruct (F32.ltb v (F32.of_Z 0)) eqn:E0; [reflexivity|].
  destruct (F32.ltb (F32.of_Z 1000) v) eqn:E1; [reflexivity|].
  apply ltb_false_leb in E0, E1; try assumption; try reflexivity.
  unfold in_range in Hr. rewrite E0, E1 in Hr. discriminate.
Qed.

Lemma validate_data_result sensor :
  validate_data sensor = (1, [])
  \/ validate_data sensor = (0, [Printf ErrEmptyId])
  \/ validate_data sensor = (0, [Printf (ErrOutOfRange (value sensor))]).
Proof.
  unfold validate_data.
  destruct (String.length (id sensor) =? 0)%nat; [auto|].
  destruct (F32.ltb _ _ || F32.gtb _ _); auto.
Qed.

(** ** One turn of the loop *)

Section Frame.

Variable info : SerialPortInfo.
Variable buffer : string.
Variable can_open : bool.
Variable stats : SensorStats.

Lemma handle_frame_unscanned :
  sscanf_s_f buffer = ScanEOF \/ (exists tok, sscanf_s_f buffer = ScanOne tok) ->
  handle_frame info buffer can_open stats
  = Some (stats, [Printf (ErrInvalidFormat buffer)]).
Proof.
  unfold handle_frame. intros [H | [tok H]]; rewrite H; reflexivity.
Qed.

Lemma handle_frame_invalid tok v :
  sscanf_s_f buffer = ScanTwo tok v ->
  fst (validate_data {| id := tok; value := v |}) = 0 ->
  handle_frame info buffer can_open stats
  = Some (stats, snd (validate_data {| id := tok; value := v |})
                 ++ [Printf (ErrInvalidFormat buffer)]).
Proof.
  unfold handle_frame. intros H Hv. rewrite H.
  destruct (validate_data {| id := tok; value := v |}) as [ok ev1].
  simpl in Hv. subst ok. reflexivity.
Qed.

Lemma handle_frame_accepted tok v :
  sscanf_s_f buffer = ScanTwo tok v ->
  fst (validate_data {| id := tok; value := v |}) <> 0 ->
  let sensor := {| id := tok; value := v |} in
  handle_frame info buffer can_open stats
  = Some (fst (monitor_quality sensor stats (port_name info)),
          Printf (Reading (port_name info) tok v)
            :: log_to_csv csv_file (port_name info) sensor can_open
            ++ snd (monitor_quality sensor stats (port_name info))).
Proof.
  intros H Hv sensor. unfold handle_frame. rewrite H.
  fold sensor in Hv |- *.
  destruct (validate_data_result sensor) as [E|[E|E]];
    rewrite E in Hv |- *; simpl in Hv; try congruence.
  reflexivity.
Qed.

(** A turn of the loop closes no handle. *)
Lemma handle_frame_no_close stats' ev :
  handle_frame info buffer can_open stats = Some (stats', ev) ->
  existsb is_close ev = false.
Proof.
  unfold handle_frame.
  destruct (sscanf_s_f buffer) as [|tok|tok v|]; try discriminate;
    try (intros H; inversion H; reflexivity).
  destruct (validate_data_result {| id := tok; value := v |}) as [E|[E|E]];
    rewrite E; cbn [Z.eqb]; try (intros H; inversion H; reflexivity).
  unfold monitor_quality, log_to_csv. cbn [value id min_limit max_limit].
  destruct can_open, (F32.ltb v (min_limit stats) || F32.gtb v (max_limit stats));
    intros H; inversion H; reflexivity.
Qed.

Lemma handle_frame_defined :
  fits_id buffer = true -> handle_frame info buffer can_open stats <> None.
Proof.
  unfold fits_id, handle_frame.
  destruct (sscanf_s_f buffer) as [|tok|tok v|]; try discriminate.
  intros _.
  destruct (validate_data {| id := tok; value := v |}) as [ok ev1].
  destruct (ok =? 0); [discriminate|].
  destruct (monitor_quality _ _ _). discriminate.
Qed.

Lemma rejected_cases :
  rejected buffer = true ->
  sscanf_s_f buffer = ScanEOF
  \/ (exists tok, sscanf_s_f buffer = ScanOne tok)
  \/ (exists tok v, sscanf_s_f buffer = ScanTwo tok v
        /\ fst (validate_data {| id := tok; value := v |}) = 0).
Proof.
  unfold rejected. destruct (sscanf_s_f buffer) as [|tok|tok v|];
    try discriminate; eauto.
  intros H. apply Z.eqb_eq in H. eauto 6.
Qed.

End Frame.

(** A frame that is scanned without running over [sensor.id] and fails
    parsing or validation leaves the worker's statistics as they were, all
    six fields; the worker prints error lines only, no alert, writes
    nothing to the CSV file, and goes on with the next read. *)
Lemma rejected_frame_changes_nothing :
  forall (info : SerialPortInfo) (buffer : string) (can_open : bool)
         (stats : SensorStats),
    rejected buffer = true ->
    exists ev,
      handle_frame info buffer can_open stats = Some (stats, ev)
      /\ existsb is_alert ev = false
      /\ existsb is_fprintf ev = false
      /\ In (Printf (ErrInvalidFormat buffer)) ev
      /\ forall polls,
          polling_loop info (read_ok buffer can_open :: polls) stats
          = let '(pr, stats', ev') := polling_loop info polls stats in
            (pr, stats', ev ++ Sleep 1000 :: ev').
Proof.
  intros info buffer can_open stats H.
  assert (E : exists ev,
             handle_frame info buffer can_open stats = Some (stats, ev)
             /\ existsb is_alert ev = false /\ existsb is_fprintf ev = false
             /\ In (Printf (ErrInvalidFormat buffer)) ev).
  { destruct (rejected_cases _ H) as [E|[E|(tok & v & E & Hv)]].
    - eexists. split; [apply handle_frame_unscanned; auto|].
      simpl; auto.
    - eexists. split; [apply handle_frame_unscanned; auto|].
      simpl; auto.
    - eexists. split; [eapply handle_frame_invalid; eassumption|].
      destruct (validate_data_result {| id := tok; value := v |}) as [V|[V|V]];
        rewrite V in Hv |- *; simpl in Hv; try discriminate; simpl; auto. }
  destruct E as (ev & E & Ha & Hf & Hin).
  exists ev. repeat split; try assumption.
  intros polls. cbn [polling_loop read_ok ReadFile_result fopen_ok].
  rewrite E. reflexivity.
Qed.

(** ** The order of persisting and recording *)

Lemma nth_error_one {A} (x y : A) i : nth_error [x] i = Some y -> i = O /\ x = y.
Proof.
  destruct i as [|i]; simpl; [intros H; inversion H; auto|].
  destruct i; discriminate.
Qed.

Lemma accepted_events_order (e0 : event) csv al :
  is_alert e0 = false -> is_fprintf e0 = false ->
  (exists x, csv = [x] /\ is_alert x = false) ->
  (al = [] \/ exists y, al = [y] /\ is_fprintf y = false) ->
  persist_before_alert (e0 :: csv ++ al).
Proof.
  intros Ha0 Hf0 (x & -> & Hx) Hal i j a f Hi Ha Hj Hf.
  destruct i as [|[|i]]; simpl in Hi.
  - inversion Hi; subst. congruence.
  - inversion Hi; subst. congruence.
  - destruct j as [|[|j]]; simpl in Hj.
    + inversion Hj; subst. congruence.
    + lia.
    + destruct Hal as [-> | (y & -> & Hy)].
      * destruct j; discriminate.
      * apply nth_error_one in Hj. destruct Hj as [_ <-]. congruence.
Qed.

(** C5, as the code has it.  For every frame that is scanned and validated,
    the worker prints the reading, then hands it to [log_to_csv], whether
    or not the file can be opened, and only then lets [monitor_quality]
    update the statistics and print its alert: every write to the CSV file
    comes before the alert, and the statistics are updated in the same way
    whether the write succeeded or not. *)
Theorem accepted_frame_persists_then_records :
  forall (info : SerialPortInfo) (buffer tok : string) (v : F32.float)
         (can_open : bool) (stats : SensorStats),
    sscanf_s_f buffer = ScanTwo tok v ->
    fst (validate_data {| id := tok; value := v |}) <> 0 ->
    let sensor := {| id := tok; value := v |} in
    let port := port_name info in
    let ev := Printf (Reading port tok v)
                :: log_to_csv csv_file port sensor can_open
                ++ snd (monitor_quality sensor stats port) in
    handle_frame info buffer can_open stats
    = Some (fst (monitor_quality sensor stats port), ev)
    /\ persist_before_alert ev
    /\ (can_open = true -> In (Fprintf csv_file (csv_line port sensor)) ev)
    /\ (can_open = false -> In (Printf (ErrOpenFile csv_file)) ev).
Proof.
  intros info buffer tok v can_open stats H Hv sensor port ev.
  split; [apply handle_frame_accepted; assumption|].
  split.
  - unfold ev. apply accepted_events_order; try reflexivity.
    + unfold log_to_csv. destruct can_open; eexists; split; reflexivity.
    + rewrite monitor_quality_events.
      destruct (F32.ltb _ _ || F32.gtb _ _); [right|left; reflexivity].
      eexists; split; reflexivity.
  - split; intros ->; unfold ev, log_to_csv; simpl; auto.
Qed.

Lemma accepted_frame_persists_then_records_witness :
  let info := com3 in
  (sscanf_s_f "TEMP 30.00" = ScanTwo "TEMP" (F32.of_Z 30)
   /\ fst (validate_data (temp (F32.of_Z 30))) <> 0)
  /\ handle_frame info "TEMP 30.00" false initial_stats
     = Some (fst (monitor_quality (temp (F32.of_Z 30)) initial_stats "COM3"),
             [Printf (Reading "COM3" "TEMP" (F32.of_Z 30));
              Printf (ErrOpenFile csv_file);
              Printf (Alert "TEMP" "COM3" (F32.of_Z 30) (F32.of_Z 5) (F32.of_Z 25))]).
Proof.
  intros info.
  assert (H1 : sscanf_s_f "TEMP 30.00" = ScanTwo "TEMP" (F32.of_Z 30)) by reflexivity.
  assert (H2 : fst (validate_data (temp (F32.of_Z 30))) <> 0) by discriminate.
  split; [auto|].
  exact (proj1 (accepted_frame_persists_then_records
                  info "TEMP 30.00" "TEMP" (F32.of_Z 30) false initial_stats H1 H2)).
Defined.

(** Against C5 as it is stated: on the frame "TEMP 30.00" the line goes to
    the CSV file before the alert is printed, not after it. *)
Lemma alert_before_persist_counterexample :
  let ev := [Printf (Reading "COM3" "TEMP" (F32.of_Z 30));
             Fprintf csv_file ("COM3,TEMP,30.00" ++ nl)%string;
             Printf (Alert "TEMP" "COM3" (F32.of_Z 30) (F32.of_Z 5) (F32.of_Z 25))] in
  handle_frame com3 "TEMP 30.00" true initial_stats
  = Some (fst (monitor_quality (temp (F32.of_Z 30)) initial_stats "COM3"), ev)
  /\ ~ alert_before_persist ev.
Proof.
  intros ev. split; [reflexivity|].
  intros H.
  specialize (H 2%nat 1%nat _ _ eq_refl eq_refl eq_refl eq_refl). lia.
Qed.

(** ** The CSV record *)

Section Record.

Import Scan Fmt.
Local Open Scope string_scope.

Lemma append_assoc (s t u : string) : (s ++ t) ++ u = s ++ (t ++ u).
Proof. induction s as [|c s IH]; simpl; [reflexivity|]. rewrite IH. reflexivity. Qed.

Lemma occurrences_append c s t :
  occurrences c (s ++ t) = (occurrences c s + occurrences c t)%nat.
Proof. induction s as [|d s IH]; simpl; [reflexivity|]. rewrite IH. lia. Qed.

Lemma occurrences_digit c d :
  isdigit c = false -> isdigit d = true -> Ascii.eqb c d = false.
Proof.
  intros Hc Hd. destruct (Ascii.eqb_spec c d); [subst; congruence|reflexivity].
Qed.

Lemma isdigit_digit d : 0 <= d <= 9 -> isdigit (digit d) = true.
Proof.
  intros H.
  assert (E : d = 0 \/ d = 1 \/ d = 2 \/ d = 3 \/ d = 4 \/ d = 5 \/ d = 6
              \/ d = 7 \/ d = 8 \/ d = 9) by lia.
  repeat (destruct E as [E|E]; [subst; reflexivity|]). subst; reflexivity.
Qed.

Lemma occurrences_uint c u :
  isdigit c = false -> occurrences c (NilEmpty.string_of_uint u) = O.
Proof.
  intros Hc. induction u; simpl; try reflexivity;
    rewrite IHu, occurrences_digit by (assumption || reflexivity); reflexivity.
Qed.

Lemma occurrences_dec c n : isdigit c = false -> occurrences c (dec n) = O.
Proof.
  intros Hc. unfold dec, NilZero.string_of_uint.
  destruct (N.to_uint (Z.to_N n)) eqn:E;
    try (rewrite <- E; apply occurrences_uint; assumption).
  simpl. rewrite occurrences_digit by (assumption || reflexivity). reflexivity.
Qed.

(** The characters a formatted value is made of: digits, a sign, a
    point, and the letters of "nan" and "inf". *)
Lemma occurrences_fmt_2f c v :
  isdigit c = false -> occurrences c "-.nanif" = O ->
  occurrences c (fmt_2f v) = O.
Proof.
  intros Hc Hl.
  assert (Hs : forall s, occurrences c (sign s) = O).
  { intros [|]; simpl; [|reflexivity].
    simpl in Hl. destruct (Ascii.eqb c "-"); [discriminate|reflexivity]. }
  simpl in Hl.
  destruct (Ascii.eqb c "-") eqn:E1; [discriminate|].
  destruct (Ascii.eqb c ".") eqn:E2; [discriminate|].
  destruct (Ascii.eqb c "n") eqn:E3; [discriminate|].
  destruct (Ascii.eqb c "a") eqn:E4; [discriminate|].
  destruct (Ascii.eqb c "i") eqn:E5; [discriminate|].
  destruct (Ascii.eqb c "f") eqn:E6; [discriminate|].
  destruct v as [s|s| |s m e]; unfold fmt_2f.
  - rewrite occurrences_append, Hs. simpl.
    rewrite E2, !occurrences_digit by (assumption || reflexivity). reflexivity.
  - rewrite occurrences_append, Hs. simpl. rewrite E3, E5, E6. reflexivity.
  - simpl. rewrite E3, E4. reflexivity.
  - unfold fixed2. rewrite !occurrences_append, Hs, occurrences_dec by assumption.
    simpl. rewrite E2.
    rewrite !occurrences_digit; try assumption; try reflexivity.
    + apply isdigit_digit.
      pose proof (Z.mod_pos_bound (hundredths m e) 10 ltac:(lia)). lia.
    + apply isdigit_digit.
      pose proof (Z.mod_pos_bound (hundredths m e) 100 ltac:(lia)).
      split; [apply Z.div_pos; lia|].
      apply Z.lt_succ_r, Z.div_lt_upper_bound; lia.
Qed.

(** Two commas and one line end, beside those of the port and the tag. *)
Lemma csv_line_commas port sensor :
  occurrences comma (csv_line port sensor)
  = (2 + occurrences comma port + occurrences comma (id sensor))%nat.
Proof.
  unfold csv_line. rewrite !occurrences_append.
  rewrite occurrences_fmt_2f by reflexivity. simpl. lia.
Qed.

Lemma csv_line_newlines port sensor :
  occurrences newline (csv_line port sensor)
  = (1 + occurrences newline port + occurrences newline (id sensor))%nat.
Proof.
  unfold csv_line. rewrite !occurrences_append.
  rewrite occurrences_fmt_2f by reflexivity. simpl. lia.
Qed.

(** A finite value is printed with exactly two digits after the point. *)
Lemma fmt_2f_finite v :
  F32.is_finite v = true ->
  exists whole d1 d2,
    fmt_2f v = whole ++ "." ++ String d1 (String d2 "")
    /\ isdigit d1 = true /\ isdigit d2 = true
    /\ occurrences "." whole = O.
Proof.
  destruct v as [s|s| |s m e]; try discriminate; intros _.
  - exists (sign s ++ "0"), "0"%char, "0"%char. repeat split.
    + unfold fmt_2f. destruct s; reflexivity.
    + destruct s; reflexivity.
  - exists (sign s ++ dec (hundredths m e / 100)),
      (digit (hundredths m e mod 100 / 10)), (digit (hundredths m e mod 10)).
    repeat split.
    + unfold fmt_2f, fixed2. rewrite append_assoc. reflexivity.
    + apply isdigit_digit.
      pose proof (Z.mod_pos_bound (hundredths m e) 100 ltac:(lia)).
      split; [apply Z.div_pos; lia|].
      apply Z.lt_succ_r, Z.div_lt_upper_bound; lia.
    + apply isdigit_digit.
      pose proof (Z.mod_pos_bound (hundredths m e) 10 ltac:(lia)). lia.
    + rewrite occurrences_append, occurrences_dec by reflexivity.
      destruct s; reflexivity.
Qed.

(** A token of the scanner holds no line end. *)
Lemma token_no_newline s :
  occurrences newline (fst (span_nonws s)) = O.
Proof.
  induction s as [|d s IH]; simpl; [reflexivity|].
  destruct (isspace d) eqn:E; [reflexivity|].
  destruct (span_nonws s) as [tok rest]. cbn [fst occurrences] in *.
  rewrite IH.
  destruct (Ascii.eqb_spec newline d); [subst; discriminate|reflexivity].
Qed.

End Record.

(** The pieces of a text between the occurrences of a character. *)
Section Split.

Import Fmt.
Local Open Scope string_scope.

Lemma split_on_length c s :
  List.length (split_on c s) = S (occurrences c s).
Proof.
  induction s as [|d s IH]; [reflexivity|].
  cbn [split_on occurrences]. destruct (Ascii.eqb c d).
  - cbn [List.length]. rewrite IH. reflexivity.
  - destruct (split_on c s) as [|f fs]; [discriminate IH|]. exact IH.
Qed.

Lemma split_on_none c s : occurrences c s = O -> split_on c s = [s].
Proof.
  induction s as [|d s IH]; [reflexivity|].
  cbn [split_on occurrences]. destruct (Ascii.eqb c d); [discriminate|].
  intros H. rewrite IH by exact H. reflexivity.
Qed.

Lemma split_on_app c a b :
  occurrences c a = O -> split_on c (a ++ String c b) = a :: split_on c b.
Proof.
  induction a as [|d a IH].
  - intros _. cbn [append split_on]. rewrite Ascii.eqb_refl. reflexivity.
  - cbn [append split_on occurrences]. destruct (Ascii.eqb c d); [discriminate|].
    intros H. rewrite IH by exact H. reflexivity.
Qed.

End Split.

(** C1, where the code leaves it.  A NaN is neither below 0 nor above 1000
    for the comparisons of [validate_data], which lets it through although
    it is not in the range from 0 to 1000: the frame "TEMP nan" is
    scanned, validated, written to the CSV file and added to the
    statistics. *)
Theorem validate_data_accepts_nan :
  in_range F32.nan = false
  /\ validate_data (temp F32.nan) = (1, [])
  /\ sscanf_s_f "TEMP nan" = ScanTwo "TEMP" F32.nan
  /\ rejected "TEMP nan" = false
  /\ handle_frame com3 "TEMP nan" true initial_stats
     = Some (fst (monitor_quality (temp F32.nan) initial_stats "COM3"),
             [Printf (Reading "COM3" "TEMP" F32.nan);
              Fprintf csv_file ("COM3,TEMP,nan" ++ nl)%string])
  /\ total_value (fst (monitor_quality (temp F32.nan) initial_stats "COM3"))
     = F32.nan.
Proof. repeat split. Qed.

(** What [validate_data] does on every other reading: it answers 1 for a
    tag that is not empty with a value in the range, and 0 otherwise, with
    the message of the first check that failed. *)
Lemma validate_data_spec sensor :
  F32.is_nan (value sensor) = false ->
  validate_data sensor =
  if (String.length (id sensor) =? 0)%nat then (0, [Printf ErrEmptyId])
  else if in_range (value sensor) then (1, [])
       else (0, [Printf (ErrOutOfRange (value sensor))]).
Proof.
  destruct sensor as [tok v]. simpl id. simpl value. intros Hn.
  destruct tok as [|c tok]; [reflexivity|]. cbn [String.length Nat.eqb].
  destruct (in_range v) eqn:E.
  - apply validate_data_in_range; [discriminate|assumption].
  - apply validate_data_out_of_range; [discriminate|assumption|assumption].
Qed.

(** ** The record of a reading *)

Lemma in_range_is_finite v : in_range v = true -> F32.is_finite v = true.
Proof.
  destruct v as [s|s| |s m e]; intros H; try reflexivity.
  - destruct s; vm_compute in H; discriminate.
  - vm_compute in H. discriminate.
Qed.

Lemma validated_number_in_range tok v :
  fst (validate_data {| id := tok; value := v |}) <> 0 ->
  F32.is_nan v = false -> in_range v = true.
Proof.
  intros Hv Hn.
  rewrite (validate_data_spec {| id := tok; value := v |} Hn) in Hv.
  cbn [id value] in Hv.
  destruct (String.length tok =? 0)%nat; [simpl in Hv; congruence|].
  destruct (in_range v); [reflexivity|simpl in Hv; congruence].
Qed.

Lemma written_monitor_quality sensor stats port :
  written (snd (monitor_quality sensor stats port)) = [].
Proof.
  rewrite monitor_quality_events.
  destruct (F32.ltb _ _ || F32.gtb _ _); reflexivity.
Qed.

Lemma sscanf_two_no_newline buffer tok v :
  sscanf_s_f buffer = ScanTwo tok v -> occurrences newline tok = O.
Proof.
  intros H. apply sscanf_two in H.
  destruct H as (c & t & rest & _ & _ & Et & _).
  pose proof (token_no_newline (String c t)) as N.
  rewrite Et in N. exact N.
Qed.

(** C8, as the code has it.  For every frame that is scanned and validated
    and whose value is a number, what the worker appends to the CSV file is
    one text: the port name, a comma, the tag, a comma, the value with
    exactly two digits after its point, and a line end.  Cut at its commas
    the text has three pieces and as many more as the port name and the tag
    hold commas; they are the port name, the tag and the value when neither
    holds a comma.  For a port name without a line end the text is a single
    line, ended by its only line end. *)
Theorem persisted_record_format :
  forall (info : SerialPortInfo) (buffer tok : string) (v : F32.float)
         (stats : SensorStats),
    sscanf_s_f buffer = ScanTwo tok v ->
    fst (validate_data {| id := tok; value := v |}) <> 0 ->
    F32.is_nan v = false ->
    let port := port_name info in
    let number := Fmt.fmt_2f v in
    let line := (port ++ "," ++ tok ++ "," ++ number ++ nl)%string in
    option_map (fun r => written (snd r)) (handle_frame info buffer true stats)
    = Some [line]
    /\ (exists whole d1 d2,
          number = (whole ++ "." ++ String d1 (String d2 ""))%string
          /\ Scan.isdigit d1 = true /\ Scan.isdigit d2 = true
          /\ occurrences "." whole = O)
    /\ List.length (split_on comma line)
       = (3 + occurrences comma port + occurrences comma tok)%nat
    /\ (occurrences comma port = O -> occurrences comma tok = O ->
        split_on comma line = [port; tok; (number ++ nl)%string])
    /\ (occurrences newline port = O ->
        split_on newline line
        = [(port ++ "," ++ tok ++ "," ++ number)%string; EmptyString]).
Proof.
  intros info buffer tok v stats Hs Hv Hn port number line.
  pose proof (validated_number_in_range tok v Hv Hn) as Hr.
  assert (L : line = csv_line port {| id := tok; value := v |}) by reflexivity.
  split; [|split; [|split; [|split]]].
  - rewrite (handle_frame_accepted info buffer true stats tok v Hs Hv).
    cbn [option_map snd log_to_csv written app].
    rewrite written_monitor_quality. reflexivity.
  - apply fmt_2f_finite, in_range_is_finite, Hr.
  - rewrite L, split_on_length, csv_line_commas. reflexivity.
  - intros Hp Ht. unfold line.
    change ("," ++ tok ++ "," ++ number ++ nl)%string
      with (String comma (tok ++ String comma (number ++ nl))%string).
    rewrite split_on_app by exact Hp.
    rewrite split_on_app by exact Ht.
    rewrite split_on_none; [reflexivity|].
    unfold number.
    rewrite occurrences_append, occurrences_fmt_2f by reflexivity. reflexivity.
  - intros Hp. unfold line.
    replace (port ++ "," ++ tok ++ "," ++ number ++ nl)%string
      with ((port ++ "," ++ tok ++ "," ++ number) ++ String newline "")%string
      by (rewrite !append_assoc; reflexivity).
    rewrite split_on_app; [reflexivity|].
    rewrite !occurrences_append, Hp, (sscanf_two_no_newline _ _ _ Hs).
    unfold number. rewrite occurrences_fmt_2f by reflexivity. reflexivity.
Qed.

Lemma persisted_record_format_witness :
  let v := F32.of_decimal false 2250 (-2) in
  (sscanf_s_f "TEMP 22.50" = ScanTwo "TEMP" v
   /\ fst (validate_data {| id := "TEMP"; value := v |}) <> 0
   /\ F32.is_nan v = false)
  /\ option_map (fun r => written (snd r))
       (handle_frame com3 "TEMP 22.50" true initial_stats)
     = Some [("COM3,TEMP,22.50" ++ nl)%string]
  /\ split_on comma ("COM3,TEMP,22.50" ++ nl)%string
     = ["COM3"; "TEMP"; ("22.50" ++ nl)%string]
  /\ split_on newline ("COM3,TEMP,22.50" ++ nl)%string
     = ["COM3,TEMP,22.50"; EmptyString].
Proof.
  intros v.
  assert (H1 : sscanf_s_f "TEMP 22.50" = ScanTwo "TEMP" v) by reflexivity.
  assert (H2 : fst (validate_data {| id := "TEMP"; value := v |}) <> 0)
    by discriminate.
  assert (H3 : F32.is_nan v = false) by reflexivity.
  split; [auto|].
  destruct (persisted_record_format com3 "TEMP 22.50" "TEMP" v initial_stats H1 H2 H3)
    as (W & _ & _ & C & N).
  split; [exact W|]. split; [exact (C eq_refl eq_refl) | exact (N eq_refl)].
Defined.

(** Against C8 as it is stated: the frame [A,B 22.5] is scanned and
    validated, its tag is [A,B], and the record written for it has four
    comma-separated fields. *)
Lemma comma_in_tag_counterexample :
  let v := F32.of_decimal false 225 (-1) in
  let line := ("COM3,A,B,22.50" ++ nl)%string in
  sscanf_s_f "A,B 22.5" = ScanTwo "A,B" v
  /\ validate_data {| id := "A,B"; value := v |} = (1, [])
  /\ handle_frame com3 "A,B 22.5" true initial_stats
     = Some (fst (monitor_quality {| id := "A,B"; value := v |} initial_stats "COM3"),
             [Printf (Reading "COM3" "A,B" v); Fprintf csv_file line])
  /\ split_on comma line = ["COM3"; "A"; "B"; ("22.50" ++ nl)%string]
  /\ List.length (split_on comma line) = 4%nat.
Proof. repeat split. Qed.

(** ** The polling loop *)

Section Worker.

Variable info : SerialPortInfo.

(** As long as the reads succeed the worker stays in its loop and closes
    nothing. *)
Lemma polling_loop_reads polls : forall stats rest,
  all_read_ok polls ->
  exists stats1 ev1,
    polling_loop info polls stats = (Polling, stats1, ev1)
    /\ existsb is_close ev1 = false
    /\ polling_loop info (polls ++ rest) stats
       = let '(pr, s, ev) := polling_loop info rest stats1 in
         (pr, s, ev1 ++ ev).
Proof.
  induction polls as [|p polls IH]; intros stats rest Hok.
  - exists stats, []. repeat split.
    simpl. destruct (polling_loop info rest stats) as [[pr s] ev]. reflexivity.
  - inversion Hok as [|? ? (buffer & Hb & Hfit) Hok']; subst.
    cbn [polling_loop app]. rewrite Hb.
    destruct (handle_frame info buffer (fopen_ok p) stats) as [[stats' ev]|] eqn:E;
      [|destruct (handle_frame_defined info buffer (fopen_ok p) stats Hfit E)].
    destruct (IH stats' rest Hok') as (stats1 & ev1 & E1 & Hc & E2).
    rewrite E1, E2.
    exists stats1, (ev ++ Sleep 1000 :: ev1). repeat split.
    + rewrite existsb_app. simpl. rewrite Hc.
      rewrite (handle_frame_no_close _ _ _ _ _ _ E). reflexivity.
    + destruct (polling_loop info rest stats1) as [[pr s] ev2].
      rewrite <- app_assoc. reflexivity.
Qed.

(** A failed read ends the loop at once. *)
Lemma polling_loop_read_failed can_open rest stats :
  polling_loop info (read_failed can_open :: rest) stats
  = (Broke, stats, [Printf (ErrReadFailed (port_name info))]).
Proof. reflexivity. Qed.

End Worker.

(** C9. When a read fails, after any number of reads that succeeded, the
    worker leaves its loop, whatever the environment would have answered
    next: it prints that the read failed, closes its handle, frees its port
    record and returns 0.  This is the only [CloseHandle] of the whole run:
    the handle is released exactly once. *)
Theorem read_failure_releases_handle_once :
  forall (info : SerialPortInfo) (polls rest : list poll) (can_open : bool),
    all_read_ok polls ->
    exists stats ev,
      read_serial_thread info (polls ++ read_failed can_open :: rest)
      = (Broke, Some 0, stats,
         ev ++ [Printf (ErrReadFailed (port_name info));
                CloseHandle (hSerial info); Free (port_name info)])
      /\ polling_loop info polls initial_stats = (Polling, stats, ev)
      /\ existsb is_close ev = false
      /\ filter is_close
           (ev ++ [Printf (ErrReadFailed (port_name info));
                   CloseHandle (hSerial info); Free (port_name info)])
         = [CloseHandle (hSerial info)].
Proof.
  intros info polls rest can_open Hok.
  destruct (polling_loop_reads info polls initial_stats
              (read_failed can_open :: rest) Hok) as (stats & ev & E1 & Hc & E2).
  exists stats, ev. repeat split; try assumption.
  - unfold read_serial_thread. rewrite E2, polling_loop_read_failed.
    rewrite <- app_assoc. reflexivity.
  - rewrite filter_app. simpl.
    assert (Hnil : filter is_close ev = []).
    { clear -Hc. induction ev as [|e ev IH]; [reflexivity|].
      simpl in Hc |- *. apply orb_false_iff in Hc. destruct Hc as [He Hc].
      rewrite He. auto. }
    rewrite Hnil. reflexivity.
Qed.

Lemma read_failure_releases_handle_once_witness :
  let polls := [read_ok "TEMP 22.50" true; read_ok "BAD" true] in
  all_read_ok polls
  /\ exists stats ev,
      read_serial_thread com3 (polls ++ [read_failed true])
      = (Broke, Some 0, stats,
         ev ++ [Printf (ErrReadFailed "COM3"); CloseHandle 7; Free "COM3"])
      /\ existsb is_close ev = false.
Proof.
  intros polls.
  assert (H : all_read_ok polls)
    by (repeat constructor; eexists; split; reflexivity).
  split; [exact H|].
  destruct (read_failure_releases_handle_once com3 polls [] true H)
    as (stats & ev & E & _ & Hc & _).
  exists stats, ev. split; [exact E | exact Hc].
Defined.

(** ** [main] *)

Lemma array_set_app {A} (done : list A) x y l :
  array_set (done ++ x :: l) (List.length done) y = done ++ y :: l.
Proof. induction done as [|d done IH]; simpl; [reflexivity|]. rewrite IH. reflexivity. Qed.

Lemma started_app ev1 ev2 : started (ev1 ++ ev2) = started ev1 ++ started ev2.
Proof.
  induction ev1 as [|e ev1 IH]; [reflexivity|].
  destruct e; simpl; rewrite IH; reflexivity.
Qed.

Lemma waits_app ev1 ev2 : waits (ev1 ++ ev2) = waits ev1 ++ waits ev2.
Proof.
  induction ev1 as [|e ev1 IH]; [reflexivity|].
  destruct e; simpl; rewrite IH; reflexivity.
Qed.

Lemma setup_serial_quiet name baud env :
  started (snd (setup_serial name baud env)) = []
  /\ waits (snd (setup_serial name baud env)) = [].
Proof.
  unfold setup_serial.
  destruct (CreateFile_result env =? INVALID_HANDLE_VALUE); [split; reflexivity|].
  destruct (GetCommState_ok env); [|split; reflexivity].
  destruct (SetCommState_ok env); split; reflexivity.
Qed.

(** The slots of the ports that did not open are never written. *)
Lemma start_ports_threads ports : forall done,
  fst (start_ports ports (List.length done)
         (done ++ repeat None (List.length ports)))
  = done ++ map slot_of ports.
Proof.
  induction ports as [|[name env] ports IH]; intros done; [reflexivity|].
  cbn [start_ports List.length repeat map slot_of].
  destruct (setup_serial name CBR_9600 (serial env)) as [h ev1]. cbn [fst].
  destruct (h =? NULL).
  - specialize (IH (done ++ [None])).
    rewrite length_app, Nat.add_1_r, <- app_assoc in IH. simpl app in IH.
    destruct (start_ports ports (S (List.length done)) _) as [threads ev].
    simpl in *. rewrite IH, <- app_assoc. reflexivity.
  - rewrite array_set_app.
    specialize (IH (done ++ [Some (beginthreadex_result env)])).
    rewrite length_app, Nat.add_1_r, <- app_assoc in IH. simpl app in IH.
    destruct (start_ports ports (S (List.length done)) _) as [threads ev].
    simpl in *. rewrite IH, <- app_assoc. reflexivity.
Qed.

(** A failure on one port does not keep the later ports from starting. *)
Lemma start_ports_started ports : forall i threads,
  started (snd (start_ports ports i threads)) = flat_map worker_of ports
  /\ waits (snd (start_ports ports i threads)) = [].
Proof.
  induction ports as [|[name env] ports IH]; intros i threads; [split; reflexivity|].
  cbn [start_ports flat_map worker_of].
  destruct (setup_serial_quiet name CBR_9600 (serial env)) as [Q1 Q2].
  destruct (setup_serial name CBR_9600 (serial env)) as [h ev1]. cbn [fst snd] in *.
  destruct (h =? NULL).
  - destruct (IH (S i) threads) as [IH1 IH2].
    destruct (start_ports ports (S i) threads) as [threads' ev]. cbn [snd] in *.
    rewrite started_app, waits_app, Q1, Q2. simpl. auto.
  - destruct (IH (S i) (array_set threads i (Some (beginthreadex_result env))))
      as [IH1 IH2].
    destruct (start_ports ports (S i) _) as [threads' ev]. cbn [snd] in *.
    rewrite !started_app, !waits_app, Q1, Q2, IH1, IH2.
    destruct (beginthreadex_result env =? NULL); split; reflexivity.
Qed.

(** [main] starts a worker for every port that opens and gets a thread, and
    then waits on all the slots of [threads], written or not. *)
Lemma main_on_starts_and_waits ports :
  started (snd (main_on ports)) = flat_map worker_of ports
  /\ waits (snd (main_on ports))
     = [(Z.of_nat (List.length ports), map slot_of ports)].
Proof.
  unfold main_on.
  pose proof (start_ports_threads ports []) as T.
  destruct (start_ports_started ports 0 (repeat None (List.length ports))) as [S1 S2].
  simpl in T.
  destruct (start_ports ports 0 (repeat None (List.length ports))) as [threads ev].
  cbn [fst snd] in *. subst threads.
  rewrite started_app, waits_app, S1, S2. simpl. rewrite app_nil_r. auto.
Qed.

(** C6, where the code leaves it.  When COM4 cannot be opened while COM3 and
    COM5 start, [main] skips COM4 only and starts the two others, but then
    calls [WaitForMultipleObjects] on all three slots of [threads], that of
    COM4, which was never written, among them: it does not wait on the two
    workers it started and on them only.  When COM4 opens and gets no
    thread, its slot holds [NULL] and is waited on all the same. *)
Theorem main_waits_on_unset_slot :
  main (port_up 11 21) port_down (port_up 13 23)
  = (0, [BeginThread {| port_name := "COM3"; hSerial := 11 |} 21;
         Printf (ErrOpenPort "COM4"); Free "COM4";
         BeginThread {| port_name := "COM5"; hSerial := 13 |} 23;
         WaitForMultipleObjects 3 [Some 21; None; Some 23];
         Printf AllFinished])
  /\ started (snd (main (port_up 11 21) port_down (port_up 13 23)))
     = [({| port_name := "COM3"; hSerial := 11 |}, 21);
        ({| port_name := "COM5"; hSerial := 13 |}, 23)]
  /\ waits (snd (main (port_up 11 21) port_down (port_up 13 23)))
     = [(3, [Some 21; None; Some 23])]
  /\ main (port_up 11 21) (port_up 12 NULL) (port_up 13 23)
     = (0, [BeginThread {| port_name := "COM3"; hSerial := 11 |} 21;
            Printf (ErrCreateThread "COM4"); CloseHandle 12; Free "COM4";
            BeginThread {| port_name := "COM5"; hSerial := 13 |} 23;
            WaitForMultipleObjects 3 [Some 21; Some NULL; Some 23];
            Printf AllFinished]).
Proof. repeat split. Qed.

(** ** What the scanner makes of the fields of a frame *)

Section Fields.

Import Scan.

Lemma fields_skip_ws s : fields (skip_ws s) = fields s.
Proof.
  induction s as [|c s IH]; [reflexivity|].
  simpl. destruct (isspace c) eqn:E; [exact IH|].
  simpl. rewrite E. reflexivity.
Qed.

Lemma fields_span t : forall c,
  isspace c = false ->
  fields (String c t)
  = fst (span_nonws (String c t)) :: fields (snd (span_nonws (String c t))).
Proof.
  induction t as [|d t IH]; intros c Hc.
  - simpl. rewrite Hc. reflexivity.
  - rewrite span_nonws_head by assumption. cbn [fst snd].
    cbn [fields]. rewrite Hc. cbn [starts_field].
    destruct (isspace d) eqn:Ed; cbn [negb].
    + cbn [span_nonws]. rewrite Ed. cbn [fst snd fields]. rewrite Ed.
      reflexivity.
    + specialize (IH d Ed). cbn [fields] in IH. rewrite Ed in IH.
      rewrite IH. reflexivity.
Qed.

(** [sscanf] looks at the first two fields of the frame and at nothing
    after them; of the second it takes the number it begins with. *)
Lemma sscanf_fields buffer :
  sscanf_s_f buffer =
  match fields (c_str buffer) with
  | [] => ScanEOF
  | tok :: more =>
      if (ID_SIZE <=? String.length tok)%nat then ScanOverrun
      else match more with
           | [] => ScanOne tok
           | num :: _ =>
               match scan_float num with
               | Some v => ScanTwo tok v
               | None => ScanOne tok
               end
           end
  end.
Proof.
  unfold sscanf_s_f. rewrite <- (fields_skip_ws (c_str buffer)).
  destruct (skip_ws (c_str buffer)) as [|c t] eqn:Es; [reflexivity|].
  pose proof (skip_ws_head _ _ _ Es) as Hc.
  rewrite (fields_span t c Hc).
  destruct (span_nonws (String c t)) as [tok rest]. cbn [fst snd].
  destruct (ID_SIZE <=? String.length tok)%nat; [reflexivity|].
  rewrite <- (fields_skip_ws rest).
  destruct (skip_ws rest) as [|d r] eqn:Er; [reflexivity|].
  pose proof (skip_ws_head _ _ _ Er) as Hd.
  rewrite (fields_span r d Hd). reflexivity.
Qed.

End Fields.




(** ** Frames that do not fit the identifier *)

(** C7, where the code leaves it.  [sscanf] is given [%s] without a width
    for [char id[10]]: a frame whose first field has ten characters or more
    is written past the end of [sensor.id], next to [stats], and what the
    worker does from there on is undefined, whether or not the frame would
    have been turned down.  Such is the frame [TEMPERATURE], of a single
    field and so malformed.  A frame that fits and is turned down, by the
    scanner or by the validator, leaves the six fields of the statistics as
    they were; the worker prints error lines only, writes nothing to the
    CSV file, sleeps and reads again. *)
Theorem overlong_frame_overruns_id :
  (fields (Scan.c_str "TEMPERATURE") = ["TEMPERATURE"]
   /\ sscanf_s_f "TEMPERATURE" = ScanOverrun
   /\ handle_frame com3 "TEMPERATURE" true initial_stats = None
   /\ polling_loop com3 [read_ok "TEMPERATURE" true] initial_stats
      = (Undefined, initial_stats, []))
  /\ (forall (info : SerialPortInfo) (buffer tok : string) (more : list string)
             (can_open : bool) (stats : SensorStats) (polls : list poll),
      fields (Scan.c_str buffer) = tok :: more ->
      (ID_SIZE <= String.length tok)%nat ->
      handle_frame info buffer can_open stats = None
      /\ polling_loop info (read_ok buffer can_open :: polls) stats
         = (Undefined, stats, []))
  /\ (forall (info : SerialPortInfo) (buffer : string) (can_open : bool)
             (stats : SensorStats),
      rejected buffer = true ->
      exists ev,
        handle_frame info buffer can_open stats = Some (stats, ev)
        /\ existsb is_alert ev = false
        /\ existsb is_fprintf ev = false
        /\ In (Printf (ErrInvalidFormat buffer)) ev
        /\ forall polls,
            polling_loop info (read_ok buffer can_open :: polls) stats
            = let '(pr, stats', ev') := polling_loop info polls stats in
              (pr, stats', ev ++ Sleep 1000 :: ev')).
Proof.
  split; [repeat split|]. split; [|exact rejected_frame_changes_nothing].
  intros info buffer tok more can_open stats polls H Hl.
  assert (E : handle_frame info buffer can_open stats = None).
  { unfold handle_frame. rewrite sscanf_fields, H.
    apply Nat.leb_le in Hl. rewrite Hl. reflexivity. }
  split; [exact E|].
  cbn [polling_loop read_ok ReadFile_result fopen_ok]. rewrite E. reflexivity.
Qed.

(** * Further properties of the program *)

(** ** Opening a port *)

(** X1. [setup_serial] gives back either the handle of [CreateFile] or [NULL].
    For a handle that is not [NULL] itself, the result is not [NULL] exactly
    when the port opened and its state was read and set, and then nothing is
    printed and nothing closed.  The handle is closed, once, exactly when
    the port opened and could not be configured: it is never both returned
    and closed, and never left open on a failure. *)
Theorem setup_serial_returns_or_closes :
  forall (port : string) (baud : Z) (env : serial_env),
    let h := CreateFile_result env in
    let r := setup_serial port baud env in
    (fst r = h \/ fst r = NULL)
    /\ (h <> NULL ->
        (fst r <> NULL <->
         h <> INVALID_HANDLE_VALUE
         /\ GetCommState_ok env = true /\ SetCommState_ok env = true))
    /\ (fst r <> NULL -> snd r = [])
    /\ closes (snd r)
       = (if (h =? INVALID_HANDLE_VALUE)
             || (GetCommState_ok env && SetCommState_ok env)
          then [] else [h])
    /\ (h <> NULL -> fst r = NULL ->
        exists l, snd r = Printf l :: map CloseHandle (closes (snd r))).
Proof.
  intros port baud [h g st] h' r. subst h' r. unfold setup_serial.
  cbn [CreateFile_result GetCommState_ok SetCommState_ok].
  destruct (Z.eqb_spec h INVALID_HANDLE_VALUE) as [E|E]; cbn [fst snd orb].
  - repeat split; auto; try tauto; try congruence.
    intros _ _. eexists. reflexivity.
  - destruct g, st; cbn [negb fst snd andb closes];
      repeat split; auto;
      try (intros; try tauto; try congruence; discriminate);
      try (intros _ _; eexists; reflexivity);
      try (intros (_ & ? & ?); discriminate).
Qed.

Lemma setup_serial_returns_or_closes_witness :
  let env := {| CreateFile_result := 11; GetCommState_ok := true;
                SetCommState_ok := false |} in
  CreateFile_result env <> NULL
  /\ fst (setup_serial "COM3" CBR_9600 env) = NULL
  /\ closes (snd (setup_serial "COM3" CBR_9600 env)) = [11].
Proof.
  intros env.
  assert (Hh : CreateFile_result env <> NULL) by discriminate.
  destruct (setup_serial_returns_or_closes "COM3" CBR_9600 env)
    as (_ & H2 & _ & H4 & _).
  split; [exact Hh|]. split; [|exact H4].
  destruct (Z.eq_dec (fst (setup_serial "COM3" CBR_9600 env)) NULL) as [E|E];
    [exact E|].
  apply (H2 Hh) in E. destruct E as (_ & _ & E). discriminate E.
Defined.

(** ** Starting the workers *)

Lemma closes_app ev1 ev2 : closes (ev1 ++ ev2) = closes ev1 ++ closes ev2.
Proof.
  induction ev1 as [|e ev1 IH]; [reflexivity|].
  destruct e; simpl; rewrite IH; reflexivity.
Qed.

Lemma frees_app ev1 ev2 : frees (ev1 ++ ev2) = frees ev1 ++ frees ev2.
Proof.
  induction ev1 as [|e ev1 IH]; [reflexivity|].
  destruct e; simpl; rewrite IH; reflexivity.
Qed.

(** One turn of the [for] loop, then the rest of it. *)
Lemma start_ports_cons name env ports i threads :
  snd (start_ports ((name, env) :: ports) i threads)
  = let h := fst (setup_serial name CBR_9600 (serial env)) in
    let t := beginthreadex_result env in
    snd (setup_serial name CBR_9600 (serial env))
    ++ (if h =? NULL then [Free name]
        else if t =? NULL
             then [Printf (ErrCreateThread name); CloseHandle h; Free name]
             else [BeginThread {| port_name := name; hSerial := h |} t])
    ++ snd (start_ports ports (S i)
              (if h =? NULL then threads else array_set threads i (Some t))).
Proof.
  cbn [start_ports].
  destruct (setup_serial name CBR_9600 (serial env)) as [h ev1]. cbn [fst snd].
  destruct (h =? NULL).
  - destruct (start_ports ports (S i) threads) as [threads' ev]. reflexivity.
  - destruct (start_ports ports (S i) _) as [threads' ev].
    cbn [snd]. reflexivity.
Qed.

Lemma start_ports_accounting ports : forall i threads,
  Forall (fun p => CreateFile_result (serial (snd p)) <> NULL) ports ->
  let ev := snd (start_ports ports i threads) in
  Permutation (closes ev ++ map (fun w => hSerial (fst w)) (started ev))
    (flat_map opened_of ports)
  /\ frees ev = map fst (filter (fun p => negb (starts p)) ports).
Proof.
  induction ports as [|[name env] ports IH]; intros i threads Hnn ev;
    [split; [constructor|reflexivity]|].
  inversion Hnn as [|? ? Hh Hnn']; subst. cbn [snd] in Hh.
  unfold ev. rewrite start_ports_cons. cbv zeta.
  set (th := if _ =? NULL then threads else _).
  destruct (IH (S i) th Hnn') as [IHp IHf]. clearbody th.
  rewrite !closes_app, !started_app, !frees_app, IHf.
  cbn [flat_map filter].
  unfold starts, worker_of, setup_serial, NULL in *.
  change (opened_of (name, env))
    with (if CreateFile_result (serial env) =? INVALID_HANDLE_VALUE
          then [] else [CreateFile_result (serial env)]).
  cbn [snd fst].
  destruct (Z.eqb_spec (CreateFile_result (serial env)) INVALID_HANDLE_VALUE) as [E|E];
    cbn [fst snd orb negb andb started frees closes app map Z.eqb] in *.
  - split; [exact IHp | reflexivity].
  - destruct (GetCommState_ok (serial env)), (SetCommState_ok (serial env));
      cbn [fst snd orb negb andb started frees closes app map Z.eqb] in *;
      try (split; [apply perm_skip; exact IHp | reflexivity]).
    destruct (Z.eqb_spec (CreateFile_result (serial env)) 0) as [E0|E0];
      [destruct (Hh E0)|].
    destruct (Z.eqb_spec (beginthreadex_result env) 0) as [Et|Et];
      cbn [fst snd orb negb andb started frees closes app map hSerial] in *.
    + split; [apply perm_skip; exact IHp | reflexivity].
    + split; [|reflexivity].
      apply Permutation_sym, Permutation_cons_app, Permutation_sym. exact IHp.
Qed.

(** X2. When [main] is through with its ports, every handle [CreateFile]
    gave is either in the hands of exactly one started worker or was closed,
    once, by [setup_serial] or by [main]: none is lost and none is both
    closed and in use.  The port records [main] frees itself are those of
    the ports that got no worker.  [CreateFile] is taken not to answer
    [NULL], which [main] would mistake for a failure. *)
Theorem main_on_handle_accounting :
  forall ports : list (string * startup_env),
    Forall (fun p => CreateFile_result (serial (snd p)) <> NULL) ports ->
    let ev := snd (main_on ports) in
    Permutation (closes ev ++ map (fun w => hSerial (fst w)) (started ev))
      (flat_map opened_of ports)
    /\ frees ev = map fst (filter (fun p => negb (starts p)) ports).
Proof.
  intros ports Hnn ev. unfold ev, main_on.
  destruct (start_ports_accounting ports 0 (repeat None (List.length ports)) Hnn)
    as [Hp Hf].
  destruct (start_ports ports 0 (repeat None (List.length ports))) as [threads ev0].
  cbn [snd] in *.
  rewrite closes_app, started_app, frees_app. simpl.
  rewrite !app_nil_r. split; assumption.
Qed.

Lemma main_on_handle_accounting_witness :
  let ports := [("COM3", port_up 11 21); ("COM4", port_up 12 NULL);
                ("COM5", port_down)] in
  Forall (fun p => CreateFile_result (serial (snd p)) <> NULL) ports
  /\ Permutation
       (closes (snd (main_on ports))
        ++ map (fun w => hSerial (fst w)) (started (snd (main_on ports))))
       [11; 12]
  /\ frees (snd (main_on ports)) = ["COM4"; "COM5"].
Proof.
  intros ports.
  assert (H : Forall (fun p => CreateFile_result (serial (snd p)) <> NULL) ports)
    by (repeat constructor; discriminate).
  split; [exact H|].
  exact (main_on_handle_accounting ports H).
Defined.

Lemma worker_of_cases p : worker_of p = [] \/ exists w, worker_of p = [w].
Proof.
  destruct p as [name env]. unfold worker_of. cbv zeta.
  destruct (_ || _); eauto.
Qed.

Lemma length_flat_map_worker_of ports :
  (List.length (flat_map worker_of ports) <= List.length ports)%nat
  /\ (List.length (flat_map worker_of ports) = List.length ports
      <-> forallb starts ports = true).
Proof.
  induction ports as [|p ports [IH1 IH2]];
    [simpl; split; [lia | split; reflexivity]|].
  cbn [flat_map forallb List.length]. rewrite length_app. unfold starts at 1.
  destruct (worker_of_cases p) as [E | [w E]]; rewrite E;
    cbn [List.length andb Nat.add]; split; try lia.
  rewrite <- IH2. lia.
Qed.

Lemma starts_slot p :
  starts p = true -> worker_of p <> [] /\ map thread_slot (worker_of p) = [slot_of p].
Proof.
  destruct p as [name env]. unfold starts, worker_of, slot_of. cbv zeta.
  destruct (fst (setup_serial name CBR_9600 (serial env)) =? NULL);
    cbn [orb]; [discriminate|].
  destruct (beginthreadex_result env =? NULL); [discriminate|].
  intros _. split; [discriminate | reflexivity].
Qed.

(** X3. [main] returns 0, and what it starts for a port depends on that port
    alone: the workers started for a list of ports are those started for
    its first part followed by those started for the rest, so that a port
    that fails to open, or to get its thread, takes no other port with it. *)
Theorem main_on_ports_independent :
  forall ports1 ports2 : list (string * startup_env),
    fst (main_on (ports1 ++ ports2)) = 0
    /\ started (snd (main_on (ports1 ++ ports2)))
       = started (snd (main_on ports1)) ++ started (snd (main_on ports2))
    /\ frees (snd (main_on (ports1 ++ ports2)))
       = frees (snd (main_on ports1)) ++ frees (snd (main_on ports2))
    /\ (List.length (started (snd (main_on ports1))) <= List.length ports1)%nat.
Proof.
  intros ports1 ports2.
  destruct (main_on_starts_and_waits (ports1 ++ ports2)) as [H12 _].
  destruct (main_on_starts_and_waits ports1) as [H1 _].
  destruct (main_on_starts_and_waits ports2) as [H2 _].
  split.
  { unfold main_on. destruct (start_ports _ _ _). reflexivity. }
  split; [rewrite H12, H1, H2; apply flat_map_app|].
  split.
  - assert (F : forall ports, frees (snd (main_on ports))
                 = frees (snd (start_ports ports 0 (repeat None (List.length ports))))).
    { intros ports. unfold main_on. destruct (start_ports _ _ _) as [th ev].
      cbn [snd]. rewrite frees_app. simpl. apply app_nil_r. }
    assert (G : forall ports i th,
               frees (snd (start_ports ports i th))
               = flat_map (fun p => if starts p then [] else [fst p]) ports).
    { induction ports as [|[name env] ports IH]; intros i th; [reflexivity|].
      rewrite start_ports_cons. cbv zeta. rewrite !frees_app, IH.
      cbn [flat_map fst]. unfold starts, worker_of. cbv zeta.
      destruct (setup_serial_quiet name CBR_9600 (serial env)) as [_ _].
      assert (Q : frees (snd (setup_serial name CBR_9600 (serial env))) = []).
      { unfold setup_serial.
        destruct (_ =? INVALID_HANDLE_VALUE); [reflexivity|].
        destruct (GetCommState_ok _); [|reflexivity].
        destruct (SetCommState_ok _); reflexivity. }
      rewrite Q.
      destruct (fst (setup_serial name CBR_9600 (serial env)) =? NULL);
        [reflexivity|].
      destruct (beginthreadex_result env =? NULL); reflexivity. }
    rewrite !F, !G. apply flat_map_app.
  - rewrite H1. apply length_flat_map_worker_of.
Qed.

(** X4. [main] calls [WaitForMultipleObjects] once, on as many slots as there
    are ports.  What it waits on is the list of the threads it started, no
    more and no less, exactly when every port got its worker; as soon as
    one port fails, the call names a slot that holds no started thread. *)
Theorem main_on_waits_on_started_iff :
  forall ports : list (string * startup_env),
    let ev := snd (main_on ports) in
    (exists threads,
        waits ev = [(Z.of_nat (List.length ports), threads)]
        /\ List.length threads = List.length ports)
    /\ (waits ev = [(Z.of_nat (List.length (started ev)),
                     map thread_slot (started ev))]
        <-> forallb starts ports = true).
Proof.
  intros ports ev. unfold ev.
  destruct (main_on_starts_and_waits ports) as [Hs Hw].
  rewrite Hs, Hw. split.
  { eexists. split; [reflexivity|]. apply length_map. }
  destruct (length_flat_map_worker_of ports) as [_ Hl].
  split.
  - intros H. apply Hl. inversion H as [[Hn Hm]].
    apply Nat2Z.inj in Hn. congruence.
  - intros Hall. apply Hl in Hall as Hlen. rewrite Hlen. do 2 f_equal.
    clear Hlen Hl Hs Hw.
    induction ports as [|p ports IH]; [reflexivity|].
    cbn [forallb] in Hall. apply andb_true_iff in Hall. destruct Hall as [Hp Hall].
    cbn [map flat_map]. rewrite map_app, <- (IH Hall).
    destruct (starts_slot p Hp) as [_ E]. rewrite E. reflexivity.
Qed.

(** ** The validator on every reading *)

Lemma validate_data_nan tok :
  tok <> EmptyString ->
  validate_data {| id := tok; value := F32.nan |} = (1, []).
Proof. intros H. rewrite validate_data_nonempty by assumption. reflexivity. Qed.

(** X5. [validate_data] answers 1 or 0.  It answers 1 exactly for a tag that
    is not empty together with a value that is in the range from 0 to 1000
    or is a NaN, and then prints nothing.  When it answers 0 it prints one
    line: that the tag is empty if it is, whatever the value, and else that
    the value is out of range. *)
Theorem validate_data_characterised :
  forall sensor : SensorData,
    (fst (validate_data sensor) = 1 \/ fst (validate_data sensor) = 0)
    /\ (fst (validate_data sensor) = 1 <->
        id sensor <> EmptyString
        /\ (in_range (value sensor) = true \/ F32.is_nan (value sensor) = true))
    /\ (fst (validate_data sensor) = 1 -> snd (validate_data sensor) = [])
    /\ (fst (validate_data sensor) = 0 ->
        snd (validate_data sensor)
        = [Printf (if (String.length (id sensor) =? 0)%nat then ErrEmptyId
                   else ErrOutOfRange (value sensor))]).
Proof.
  intros [tok v]. cbn [id value].
  destruct tok as [|c tok].
  { rewrite validate_data_empty. cbn [fst snd String.length Nat.eqb].
    repeat split; auto; try discriminate. intros [H _]. congruence. }
  assert (Hne : String c tok <> EmptyString) by discriminate.
  cbn [String.length Nat.eqb].
  destruct (F32.is_nan v) eqn:En.
  { destruct v; try discriminate. change S754_nan with F32.nan.
    rewrite validate_data_nan by assumption. cbn [fst snd].
    repeat split; auto; discriminate. }
  pose proof (validate_data_spec {| id := String c tok; value := v |} En) as E.
  cbn [id value String.length Nat.eqb] in E. rewrite E.
  destruct (in_range v); cbn [fst snd]; repeat split; auto; try discriminate.
  intros (_ & [H|H]); discriminate.
Qed.

(** ** The running statistics *)

Section Extremes.

Variable port : string.

Lemma ltb_nan x : F32.ltb x S754_nan = false /\ F32.ltb S754_nan x = false.
Proof. destruct x; split; reflexivity. Qed.

Lemma ltb_not_nan x y :
  F32.ltb x y = true -> F32.is_nan x = false /\ F32.is_nan y = false.
Proof. intros H. apply ltb_leb in H. apply leb_not_nan in H. exact H. Qed.

Lemma monitor_quality_extremes r s :
  extremes_ok s ->
  let s' := fst (monitor_quality r s port) in
  extremes_ok s'
  /\ F32.leb (min_value s') (min_value s) = true
  /\ F32.leb (max_value s) (max_value s') = true
  /\ (F32.is_nan (value r) = false ->
      F32.leb (min_value s') (value r) = true
      /\ F32.leb (value r) (max_value s') = true).
Proof.
  intros (Hn1 & Hn2 & Hlo & Hhi) s'. unfold s'.
  cbn [monitor_quality fst min_value max_value]. unfold F32.gtb.
  destruct (F32.ltb (value r) (min_value s)) eqn:E1;
    destruct (F32.ltb (max_value s) (value r)) eqn:E2.
  - destruct (ltb_not_nan _ _ E1) as [Hv _].
    repeat split; auto using leb_refl, ltb_leb.
    + eapply leb_trans; [apply ltb_leb; eassumption | assumption].
    + eapply leb_trans; [eassumption | apply ltb_leb; assumption].
  - destruct (ltb_not_nan _ _ E1) as [Hv _].
    repeat split; auto using leb_refl, ltb_leb, ltb_false_leb.
    eapply leb_trans; [apply ltb_leb; eassumption | assumption].
  - destruct (ltb_not_nan _ _ E2) as [_ Hv].
    repeat split; auto using leb_refl, ltb_leb, ltb_false_leb.
    eapply leb_trans; [eassumption | apply ltb_leb; assumption].
  - repeat split; auto using leb_refl, ltb_false_leb.
Qed.

Lemma record_all_extremes l : forall s,
  extremes_ok s ->
  extremes_ok (record_all port l s)
  /\ F32.leb (min_value (record_all port l s)) (min_value s) = true
  /\ F32.leb (max_value s) (max_value (record_all port l s)) = true
  /\ (forall r, In r l -> F32.is_nan (value r) = false ->
      F32.leb (min_value (record_all port l s)) (value r) = true
      /\ F32.leb (value r) (max_value (record_all port l s)) = true).
Proof.
  induction l as [|r l IH]; intros s Hs.
  - destruct Hs as (Hn1 & Hn2 & Hlo & Hhi).
    repeat split; auto using leb_refl; destruct H.
  - rewrite record_all_cons.
    destruct (monitor_quality_extremes r s Hs) as (Hs' & Hmin & Hmax & Hr).
    destruct (IH _ Hs') as (Hs'' & Hmin' & Hmax' & Hall).
    split; [assumption|].
    split; [eapply leb_trans; eassumption|].
    split; [eapply leb_trans; eassumption|].
    intros r' [<- | Hin] Hv.
    + destruct (Hr Hv) as [H1 H2].
      split; eapply leb_trans; eassumption.
    + apply Hall; assumption.
Qed.

End Extremes.

(** X6. After any readings at all, one of which at least is not a NaN,
    [min_value] is not above [max_value], and every recorded value that is
    not a NaN lies between the two.  As long as nothing but NaNs was
    recorded the extremes keep their start values, 1000.0 for the minimum
    and -1000.0 for the maximum, the minimum above the maximum. *)
Theorem extremes_in_order :
  forall (port : string) (history : list SensorData),
    let s := record_all port history initial_stats in
    ((exists r, In r history /\ F32.is_nan (value r) = false) ->
     F32.leb (min_value s) (max_value s) = true)
    /\ (forall r, In r history -> F32.is_nan (value r) = false ->
        F32.leb (min_value s) (value r) = true
        /\ F32.leb (value r) (max_value s) = true)
    /\ (Forall (fun r => F32.is_nan (value r) = true) history ->
        min_value s = F32.of_Z 1000 /\ max_value s = F32.of_Z (-1000)
        /\ F32.ltb (max_value s) (min_value s) = true).
Proof.
  intros port history s. unfold s.
  assert (H0 : extremes_ok initial_stats) by (repeat split).
  destruct (record_all_extremes port history initial_stats H0)
    as (_ & _ & _ & Hall).
  split; [|split; [exact Hall|]].
  - intros (r & Hin & Hv). destruct (Hall r Hin Hv) as [H1 H2].
    eapply leb_trans; eassumption.
  - intros Hnan.
    assert (E : forall l s0,
               Forall (fun r => F32.is_nan (value r) = true) l ->
               min_value (record_all port l s0) = min_value s0
               /\ max_value (record_all port l s0) = max_value s0).
    { induction l as [|r l IH]; intros s0 Hl; [split; reflexivity|].
      inversion Hl as [|? ? Hr Hl']; subst. rewrite record_all_cons.
      destruct (IH (fst (monitor_quality r s0 port)) Hl') as [E1 E2].
      rewrite E1, E2. cbn [monitor_quality fst min_value max_value].
      unfold F32.gtb. destruct (value r); try discriminate.
      destruct (ltb_nan (max_value s0)) as [-> _].
      destruct (ltb_nan (min_value s0)) as [_ ->]. split; reflexivity. }
    destruct (E history initial_stats Hnan) as [E1 E2].
    rewrite E1, E2. repeat split.
Qed.

Lemma extremes_in_order_witness :
  let history := [temp F32.nan; temp (F32.of_Z 30); temp (F32.of_Z 2)] in
  let s := record_all "COM3" history initial_stats in
  (exists r, In r history /\ F32.is_nan (value r) = false)
  /\ F32.leb (min_value s) (max_value s) = true.
Proof.
  intros history s.
  assert (H : exists r, In r history /\ F32.is_nan (value r) = false).
  { exists (temp (F32.of_Z 30)). split; [right; left; reflexivity | reflexivity]. }
  split; [exact H|].
  exact (proj1 (extremes_in_order "COM3" history) H).
Defined.

(** X7. From one reading to the next [min_value] never goes up and
    [max_value] never goes down, whatever is recorded, and neither ever
    becomes a NaN: a NaN reading leaves both as they are. *)
Theorem extremes_only_widen :
  forall (port : string) (history more : list SensorData),
    let s := record_all port history initial_stats in
    let s' := record_all port more s in
    F32.leb (min_value s') (min_value s) = true
    /\ F32.leb (max_value s) (max_value s') = true
    /\ F32.is_nan (min_value s') = false
    /\ F32.is_nan (max_value s') = false
    /\ (forall r, F32.is_nan (value r) = true ->
        min_value (fst (monitor_quality r s port)) = min_value s
        /\ max_value (fst (monitor_quality r s port)) = max_value s).
Proof.
  intros port history more s s'.
  assert (H0 : extremes_ok initial_stats) by (repeat split).
  destruct (record_all_extremes port history initial_stats H0) as (Hs & _).
  fold s in Hs.
  destruct (record_all_extremes port more s Hs) as (Hs' & Hmin & Hmax & _).
  fold s' in Hs', Hmin, Hmax. destruct Hs' as (Hn1 & Hn2 & _).
  repeat split; try assumption.
  - cbn [monitor_quality fst min_value]. destruct (value r); try discriminate.
    destruct (ltb_nan (min_value s)) as [_ ->]. reflexivity.
  - cbn [monitor_quality fst max_value]. unfold F32.gtb.
    destruct (value r); try discriminate.
    destruct (ltb_nan (max_value s)) as [-> _]. reflexivity.
Qed.

Lemma add_nan x : F32.add x S754_nan = S754_nan /\ F32.add S754_nan x = S754_nan.
Proof. destruct x; split; reflexivity. Qed.

Lemma record_all_total_nan port l : forall s,
  total_value s = S754_nan -> total_value (record_all port l s) = S754_nan.
Proof.
  induction l as [|r l IH]; intros s Hs; [exact Hs|].
  rewrite record_all_cons. apply IH. cbn [monitor_quality fst total_value].
  rewrite Hs. apply add_nan.
Qed.

(** X8. A NaN reading turns [total_value] into a NaN, and a total that is a
    NaN stays one whatever is recorded afterwards: once a worker has
    recorded a NaN, its total, and the average taken from it, never hold a
    number again. *)
Theorem nan_total_is_sticky :
  forall (port : string) (history : list SensorData),
    (exists r, In r history /\ F32.is_nan (value r) = true) ->
    forall more : list SensorData,
      total_value (record_all port (history ++ more) initial_stats) = F32.nan.
Proof.
  intros port history (r & Hin & Hr) more.
  apply in_split in Hin. destruct Hin as (l1 & l2 & ->).
  unfold record_all. rewrite <- app_assoc, fold_left_app. cbn [app fold_left].
  apply (record_all_total_nan port (l2 ++ more)).
  cbn [monitor_quality fst total_value].
  destruct (value r); try discriminate. apply add_nan.
Qed.

Lemma nan_total_is_sticky_witness :
  let history := [temp (F32.of_Z 20); temp F32.nan] in
  (exists r, In r history /\ F32.is_nan (value r) = true)
  /\ total_value
       (record_all "COM3" (history ++ [temp (F32.of_Z 21)]) initial_stats)
     = F32.nan.
Proof.
  intros history.
  assert (H : exists r, In r history /\ F32.is_nan (value r) = true).
  { exists (temp F32.nan). split; [right; left; reflexivity | reflexivity]. }
  split; [exact H|].
  exact (nan_total_is_sticky "COM3" history H [temp (F32.of_Z 21)]).
Defined.

(** ** A run of the worker *)

Lemma written_app ev1 ev2 : written (ev1 ++ ev2) = written ev1 ++ written ev2.
Proof.
  induction ev1 as [|e ev1 IH]; [reflexivity|].
  destruct e; simpl; rewrite IH; reflexivity.
Qed.

Lemma output_only ev :
  forallb is_output ev = true ->
  closes ev = [] /\ frees ev = [] /\ filter is_sleep ev = [].
Proof.
  induction ev as [|e ev IH]; [repeat split|].
  cbn [forallb]. intros H. apply andb_true_iff in H. destruct H as [He H].
  destruct (IH H) as (H1 & H2 & H3).
  destruct e; try discriminate; simpl; auto.
Qed.

(** What one frame does, told by the reading it gives or fails to give. *)
Lemma handle_frame_accounting info buffer can_open stats :
  fits_id buffer = true ->
  exists ev,
    handle_frame info buffer can_open stats
    = Some (match accepted buffer with
            | Some r => fst (monitor_quality r stats (port_name info))
            | None => stats
            end, ev)
    /\ written ev
       = match accepted buffer with
         | Some r => if can_open then [csv_line (port_name info) r] else []
         | None => []
         end
    /\ forallb is_output ev = true.
Proof.
  unfold fits_id, accepted. intros Hfit.
  destruct (sscanf_s_f buffer) as [|tok|tok v|] eqn:Es; try discriminate.
  - eexists. split; [apply handle_frame_unscanned; auto|]. split; reflexivity.
  - eexists. split; [apply handle_frame_unscanned; eauto|]. split; reflexivity.
  - destruct (Z.eqb_spec (fst (validate_data {| id := tok; value := v |})) 0)
      as [Ev|Ev].
    + eexists. split; [eapply handle_frame_invalid; eassumption|].
      destruct (validate_data_result {| id := tok; value := v |}) as [V|[V|V]];
        rewrite V in Ev |- *; try discriminate; split; reflexivity.
    + eexists. split; [apply handle_frame_accepted; assumption|].
      rewrite monitor_quality_events. unfold log_to_csv.
      destruct can_open, (F32.ltb _ _ || F32.gtb _ _); split; reflexivity.
Qed.

Lemma polling_loop_accounting info polls : forall stats,
  all_read_ok polls ->
  exists ev,
    polling_loop info polls stats
    = (Polling,
       record_all (port_name info) (map fst (accepted_readings polls)) stats, ev)
    /\ written ev
       = map (fun rb => csv_line (port_name info) (fst rb))
           (filter snd (accepted_readings polls))
    /\ List.length (filter is_sleep ev) = List.length polls
    /\ closes ev = [] /\ frees ev = [].
Proof.
  induction polls as [|p polls IH]; intros stats Hok.
  - exists []. repeat split.
  - inversion Hok as [|? ? (buffer & Hb & Hfit) Hok']; subst.
    destruct (handle_frame_accounting info buffer (fopen_ok p) stats Hfit)
      as (ev1 & E1 & W1 & O1).
    cbn [polling_loop accepted_readings]. rewrite Hb, E1.
    destruct (output_only ev1 O1) as (C1 & F1 & S1).
    destruct (accepted buffer) as [r|].
    + destruct (IH (fst (monitor_quality r stats (port_name info))) Hok')
        as (ev & E & W & S & C & F).
      rewrite E. eexists. split; [reflexivity|].
      rewrite written_app, closes_app, frees_app, filter_app, length_app.
      cbn [written closes frees filter is_sleep List.length map fst snd].
      rewrite W1, W, C1, C, F1, F, S1, S.
      destruct (fopen_ok p); repeat split; simpl; lia.
    + destruct (IH stats Hok') as (ev & E & W & S & C & F).
      rewrite E. eexists. split; [reflexivity|].
      rewrite written_app, closes_app, frees_app, filter_app, length_app.
      cbn [written closes frees filter is_sleep List.length].
      rewrite W1, W, C1, C, F1, F, S1, S. repeat split; simpl; lia.
Qed.

(** X10. As long as its reads succeed a worker stays in its loop, closes and
    frees nothing, and sleeps once after each frame.  Its statistics are
    those of [monitor_quality] applied, in order, to the readings that were
    scanned and validated, and to no other frame; the CSV file gets one
    line for each of these readings for which it could be opened, in the
    same order, so that a reading that could not be logged is recorded all
    the same.  When a read then fails, the worker returns with these
    statistics. *)
Theorem worker_records_what_it_accepts :
  forall (info : SerialPortInfo) (polls rest : list poll) (can_open : bool),
    all_read_ok polls ->
    let readings := accepted_readings polls in
    let stats := record_all (port_name info) (map fst readings) initial_stats in
    let lines := map (fun rb => csv_line (port_name info) (fst rb))
                   (filter snd readings) in
    (exists ev,
        read_serial_thread info polls = (Polling, None, stats, ev)
        /\ written ev = lines
        /\ List.length (filter is_sleep ev) = List.length polls
        /\ closes ev = [] /\ frees ev = [])
    /\ (exists ev,
        read_serial_thread info (polls ++ read_failed can_open :: rest)
        = (Broke, Some 0, stats, ev)
        /\ written ev = lines
        /\ List.length (filter is_sleep ev) = List.length polls).
Proof.
  intros info polls rest can_open Hok readings stats lines.
  destruct (polling_loop_accounting info polls initial_stats Hok)
    as (ev & E & W & S & C & F).
  split.
  - exists ev. unfold read_serial_thread. rewrite E. auto.
  - destruct (polling_loop_reads info polls initial_stats
                (read_failed can_open :: rest) Hok) as (s1 & ev1 & E1 & _ & E2).
    rewrite E in E1. inversion E1; subst s1 ev1.
    unfold read_serial_thread. rewrite E2, polling_loop_read_failed.
    eexists. split; [reflexivity|].
    rewrite !written_app, !filter_app, !length_app, W, S. simpl.
    split; [unfold lines, readings; rewrite !app_nil_r; reflexivity | lia].
Qed.

Lemma worker_records_what_it_accepts_witness :
  let polls := [read_ok "TEMP 22.50" false; read_ok "BAD" true;
                read_ok "TEMP 30.00" true] in
  all_read_ok polls
  /\ exists ev,
      read_serial_thread com3 (polls ++ [read_failed true])
      = (Broke, Some 0,
         record_all "COM3" [temp (F32.of_decimal false 2250 (-2)); temp (F32.of_Z 30)]
           initial_stats, ev)
      /\ written ev = [("COM3,TEMP,30.00" ++ nl)%string].
Proof.
  intros polls.
  assert (H : all_read_ok polls)
    by (repeat constructor; eexists; split; reflexivity).
  split; [exact H|].
  destruct (worker_records_what_it_accepts com3 polls [] true H)
    as (_ & ev & E & W & _).
  exists ev. split; [exact E | exact W].
Defined.

(** ** The identifier and its array *)

Section Identifier.

Import Scan.
Local Open Scope string_scope.
Local Open Scope Z_scope.

Lemma is_token_no_blank s : is_token s = true -> no_blank s = true /\ s <> "".
Proof. destruct s; [discriminate|]. intros H. split; [exact H | discriminate]. Qed.

(** The fields of a C string are tokens. *)
Lemma fields_c_str_tokens b :
  Forall (fun f => is_token f = true) (fields (c_str b)).
Proof.
  induction b as [|c b IH]; [constructor|].
  cbn [c_str]. destruct (code c =? 0) eqn:E0; [constructor|].
  cbn [fields]. destruct (isspace c) eqn:Ec; [exact IH|].
  assert (Hc : is_token (String c "") = true)
    by (cbn [is_token no_blank]; rewrite Ec, E0; reflexivity).
  destruct (starts_field (c_str b)).
  - destruct (fields (c_str b)) as [|f fs]; [repeat constructor; exact Hc|].
    inversion IH as [|? ? Hf Hfs]; subst. constructor; [|exact Hfs].
    apply is_token_no_blank in Hf. destruct Hf as [Hf _].
    cbn [is_token no_blank]. rewrite Ec, E0, Hf. reflexivity.
  - constructor; assumption.
Qed.






Lemma sscanf_overrun buffer :
  sscanf_s_f buffer = ScanOverrun <->
  exists tok more,
    fields (c_str buffer) = tok :: more /\ (ID_SIZE <= String.length tok)%nat.
Proof.
  rewrite sscanf_fields.
  destruct (fields (c_str buffer)) as [|tok more].
  - split; [discriminate | intros (? & ? & ? & _); discriminate].
  - destruct (Nat.leb_spec ID_SIZE (String.length tok)) as [L|L].
    + split; [eauto | reflexivity].
    + split.
      * destruct more as [|num ?]; [discriminate|].
        destruct (scan_float num); discriminate.
      * intros (tok' & more' & E & L'). inversion E; subst. lia.
Qed.

End Identifier.

(** X12. Whatever [sscanf] stores as the identifier of a frame, with or
    without a number after it, is the first field of the frame: it is not
    empty, holds no white space and no NUL, and has at most nine
    characters, so that it fits [char id[10]] with its terminator. *)
Theorem stored_identifier_fits :
  forall (buffer tok : string),
    sscanf_s_f buffer = ScanOne tok
    \/ (exists v, sscanf_s_f buffer = ScanTwo tok v) ->
    hd_error (fields (Scan.c_str buffer)) = Some tok
    /\ is_token tok = true
    /\ (1 <= String.length tok <= 9)%nat.
Proof.
  intros buffer tok H.
  pose proof (fields_c_str_tokens buffer) as Ht.
  assert (E : exists more, fields (Scan.c_str buffer) = tok :: more
                           /\ (String.length tok < ID_SIZE)%nat).
  { rewrite sscanf_fields in H.
    destruct (fields (Scan.c_str buffer)) as [|tok' more];
      [destruct H as [H|[v H]]; discriminate|].
    destruct (Nat.leb_spec ID_SIZE (String.length tok')) as [L|L];
      [destruct H as [H|[v H]]; discriminate|].
    exists more. split; [|].
    - destruct more as [|num more'].
      + destruct H as [H|[v H]]; inversion H; reflexivity.
      + destruct (Scan.scan_float num); destruct H as [H|[v H]];
          inversion H; reflexivity.
    - destruct more as [|num more'].
      + destruct H as [H|[v H]]; inversion H; subst; exact L.
      + destruct (Scan.scan_float num); destruct H as [H|[v H]];
          inversion H; subst; exact L. }
  destruct E as (more & E & L). rewrite E in Ht |- *.
  inversion Ht as [|? ? Htok _]; subst.
  split; [reflexivity|]. split; [exact Htok|].
  unfold ID_SIZE in L. destruct tok; [discriminate|]. simpl in *. lia.
Qed.

Lemma stored_identifier_fits_witness :
  (sscanf_s_f "  HUMIDITY 45.5 %" = ScanOne "HUMIDITY"
   \/ exists v, sscanf_s_f "  HUMIDITY 45.5 %" = ScanTwo "HUMIDITY" v)
  /\ hd_error (fields (Scan.c_str "  HUMIDITY 45.5 %")) = Some "HUMIDITY"
  /\ is_token "HUMIDITY" = true
  /\ (1 <= String.length "HUMIDITY" <= 9)%nat.
Proof.
  assert (H : sscanf_s_f "  HUMIDITY 45.5 %" = ScanOne "HUMIDITY"
              \/ exists v, sscanf_s_f "  HUMIDITY 45.5 %" = ScanTwo "HUMIDITY" v)
    by (right; eexists; reflexivity).
  split; [exact H|].
  exact (stored_identifier_fits "  HUMIDITY 45.5 %" "HUMIDITY" H).
Defined.



(** ** Reading the CSV file back *)

(** X14. Cut at its commas, a record of the CSV file falls into three pieces
    and as many more as there are commas in the port name and in the tag,
    which are written as they are.  When neither holds a comma the pieces
    are the port name, the tag, and the value with the line end: the
    record can be read back. *)
Theorem csv_line_splits_back :
  forall (port : string) (sensor : SensorData),
    List.length (split_on comma (csv_line port sensor))
    = (3 + occurrences comma port + occurrences comma (id sensor))%nat
    /\ (occurrences comma port = O -> occurrences comma (id sensor) = O ->
        split_on comma (csv_line port sensor)
        = [port; id sensor; (Fmt.fmt_2f (value sensor) ++ nl)%string]).
Proof.
  intros port sensor. split.
  - rewrite split_on_length, csv_line_commas. lia.
  - intros Hp Hi. unfold csv_line.
    change ("," ++ id sensor ++ "," ++ Fmt.fmt_2f (value sensor) ++ nl)%string
      with (String comma (id sensor ++ String comma (Fmt.fmt_2f (value sensor) ++ nl))%string).
    rewrite split_on_app by exact Hp.
    rewrite split_on_app by exact Hi.
    rewrite split_on_none; [reflexivity|].
    rewrite occurrences_append, occurrences_fmt_2f by reflexivity. reflexivity.
Qed.

Lemma csv_line_splits_back_witness :
  (occurrences comma "COM3" = O /\ occurrences comma "TEMP" = O)
  /\ split_on comma (csv_line "COM3" (temp (F32.of_decimal false 2250 (-2))))
     = ["COM3"; "TEMP"; ("22.50" ++ nl)%string].
Proof.
  split; [split; reflexivity|].
  exact (proj2 (csv_line_splits_back "COM3" (temp (F32.of_decimal false 2250 (-2))))
           eq_refl eq_refl).
Defined.

(** ** The values that reach the CSV file *)

Section Bounds.

Import Fmt.

Lemma digits2_pos_bound m : Zpos m < 2 ^ Zpos (digits2_pos m).
Proof.
  induction m as [m IH|m IH|]; cbn [digits2_pos].
  - rewrite Pos2Z.inj_succ, Z.pow_succ_r by lia. lia.
  - rewrite Pos2Z.inj_succ, Z.pow_succ_r by lia. lia.
  - reflexivity.
Qed.

(** The significand of a binary32 number has at most 24 bits. *)
Lemma valid_binary_mantissa s m e :
  valid_binary F32.prec F32.emax (S754_finite s m e) = true ->
  Zpos m < 2 ^ 24.
Proof.
  cbn [valid_binary]. unfold bounded, canonical_mantissa, fexp, emin, F32.prec.
  intros H. apply andb_true_iff in H. destruct H as [H _].
  apply Z.eqb_eq in H.
  pose proof (digits2_pos_bound m) as Hd.
  assert (Zpos (digits2_pos m) <= 24) by lia.
  eapply Z.lt_le_trans; [exact Hd|].
  apply Z.pow_le_mono_r; lia.
Qed.

Lemma round_half_even_bounds num den X :
  0 < den -> 0 <= num <= X * den -> 0 <= round_half_even num den <= X.
Proof.
  intros Hd Hn. unfold round_half_even.
  pose proof (Z.div_mod num den ltac:(lia)) as E.
  pose proof (Z.mod_pos_bound num den Hd) as R.
  assert (Hq : 0 <= num / den) by (apply Z.div_pos; lia).
  assert (Hx : num / den <= X) by (apply Z.div_le_upper_bound; lia).
  assert (Hs : 0 < num mod den -> num / den < X) by nia.
  destruct (Z.compare_spec (2 * (num mod den)) den) as [C|C|C].
  - destruct (Z.even (num / den)); lia.
  - lia.
  - lia.
Qed.

Lemma hundredths_in_range m e :
  Zpos m < 2 ^ 24 ->
  e < -14 \/ (e = -14 /\ Zpos m <= 16384000) ->
  0 <= hundredths m e <= 100000.
Proof.
  intros Hm He. unfold hundredths.
  assert (L : (0 <=? e) = false) by (apply Z.leb_gt; lia). rewrite L.
  apply round_half_even_bounds; [apply Z.pow_pos_nonneg; lia|].
  split; [lia|].
  destruct He as [He | [-> Hm']].
  - assert (P : 2 ^ 15 <= 2 ^ (- e)) by (apply Z.pow_le_mono_r; lia).
    change (2 ^ 15) with 32768 in P. change (2 ^ 24) with 16777216 in Hm. nia.
  - assert (P : 2 ^ (- (-14)) = 16384) by reflexivity. lia.
Qed.

End Bounds.

(** X15. A binary32 number that [validate_data] lets through as being in the
    range from 0 to 1000 is written by [%.2f] as a whole number of
    hundredths between 0 and 100000, that is from 0.00 to 1000.00: no
    rounding takes it out of the range.  It carries a minus sign only when
    it is the negative zero, printed as -0.00. *)
Theorem logged_value_in_range :
  forall (tok : string) (v : F32.float),
    valid_binary F32.prec F32.emax v = true ->
    tok <> EmptyString ->
    in_range v = true ->
    validate_data {| id := tok; value := v |} = (1, [])
    /\ exists (neg : bool) (h : Z),
        Fmt.fmt_2f v = (Fmt.sign neg ++ Fmt.fixed2 h)%string
        /\ 0 <= h <= 100000
        /\ (neg = true -> v = S754_zero true /\ h = 0).
Proof.
  intros tok v Hv Ht Hr.
  split; [apply validate_data_in_range; assumption|].
  destruct v as [s|s| |s m e]; try discriminate.
  - exists s, 0. split; [destruct s; reflexivity|]. split; [lia|].
    intros ->. split; reflexivity.
  - destruct s; discriminate.
  - destruct (in_range_finite s m e Hr) as [-> He].
    exists false, (Fmt.hundredths m e). split; [reflexivity|].
    split; [|discriminate].
    apply hundredths_in_range; [|assumption].
    apply (valid_binary_mantissa false m e). exact Hv.
Qed.

Lemma logged_value_in_range_witness :
  let v := F32.of_decimal false 999996 (-3) in
  (valid_binary F32.prec F32.emax v = true /\ in_range v = true)
  /\ exists (neg : bool) (h : Z),
      Fmt.fmt_2f v = (Fmt.sign neg ++ Fmt.fixed2 h)%string
      /\ 0 <= h <= 100000.
Proof.
  intros v.
  assert (H1 : valid_binary F32.prec F32.emax v = true) by reflexivity.
  assert (H2 : in_range v = true) by reflexivity.
  split; [auto|].
  destruct (logged_value_in_range "TEMP" v H1 ltac:(discriminate) H2)
    as (_ & neg & h & E & B & _).
  exists neg, h. auto.
Defined.
